(** * gke-managed-certs: the Ingress and ManagedCertificate workers

    A shallow embedding of [pkg/controller/mcert_worker.go] and of the
    Ingress worker of the same package.  Go functions become functions
    over an explicit world (the controller's own state together with the
    state of the collaborators it calls); every call to a collaborator is
    recorded in an event list, so that the order and number of calls can
    be stated. *)

From Stdlib Require Import Ascii String.
From stdpp Require Import base option list strings gmap.

Local Open Scope string_scope.
Local Open Scope list_scope.

(** ** Go values *)

(** A Go slice is either [nil] or backed by an array; the two are told
    apart by [reflect.DeepEqual] and by the JSON encoder ([null] against
    [[]]), so the model keeps them apart. *)
Inductive slice (A : Type) : Type :=
| nil_slice
| slice_of (elems : list A).
Arguments nil_slice {A}.
Arguments slice_of {A} elems.

(** [append(s, x)] *)
Definition append {A : Type} (s : slice A) (x : A) : slice A :=
  match s with
  | nil_slice => slice_of [x]
  | slice_of l => slice_of (l ++ [x])
  end.

(** The elements a [for ... range s] loop visits. *)
Definition range {A : Type} (s : slice A) : list A :=
  match s with
  | nil_slice => []
  | slice_of l => l
  end.

(** [strings.Split(s, sep)] of the Go library: the substrings of [s]
    between the leftmost non-overlapping occurrences of [sep].  [skip]
    counts the bytes of an occurrence of [sep] still to be passed over. *)
Fixpoint genSplit (sep s : string) (skip : nat) : list string :=
  match s with
  | EmptyString => [EmptyString]
  | String c s' =>
      match skip with
      | S k => genSplit sep s' k
      | O =>
          if String.prefix sep s
          then EmptyString :: genSplit sep s' (String.length sep - 1)
          else match genSplit sep s' 0 with
               | seg :: segs => String c seg :: segs
               | [] => [String c EmptyString]
               end
      end
  end.

(** With an empty separator Go splits after every UTF-8 sequence; on the
    bytes of ASCII text that is after every byte. *)
Fixpoint explode (s : string) : list string :=
  match s with
  | EmptyString => []
  | String c s' => String c EmptyString :: explode s'
  end.

Definition strings_Split (s sep : string) : list string :=
  match sep with
  | EmptyString => explode s
  | _ => genSplit sep s 0
  end.

(** ** Errors

    Go's [error] values.  The errors the controller builds itself with
    [fmt.Errorf] carry the values they are formatted from; the errors of
    the collaborators are opaque. *)

Record SslCertificateManagedSslCertificate := {
  Managed_Status : string;
  (** a Go [map[string]string], as the entries in the order one [range]
      over it visits them; the [nil] map has none.  Go fixes no order:
      another [range] over the same map is another list with the same
      entries *)
  Managed_DomainStatus : list (string * string);
}.

(** [Managed] is a pointer in the provider's type; a certificate
    without it, at which [updateStatus] panics, is not represented. *)
Record SslCertificate := {
  SslCertificate_Name : string;
  SslCertificate_ExpireTime : string;
  Managed : SslCertificateManagedSslCertificate;
}.

(** What a work queue hands out is an [interface{}]: a string key, a
    value of some other dynamic type, or [nil]. *)
Inductive Item :=
| StringItem (key : string)
| OtherItem (goType : string) (repr : string)
| NilItem.

Global Instance Item_eq_dec : EqDecision Item.
Proof. solve_decision. Defined.

Inductive error :=
| CollaboratorError (msg : string)
| ErrUnexpectedKeyFormat (key : string)
| ErrUnexpectedDomainStatus (status : string)
| ErrUnexpectedStatus (status : string) (sslCert : SslCertificate)
| ErrNotInState (name : string)
| ErrExpectedString (queue : string) (obj : Item).

Inductive result (A : Type) : Type :=
| Ok (a : A)
| Err (err : error).
Arguments Ok {A} a.
Arguments Err {A} err.

(** ** The API types *)

Record DomainStatus := {
  Domain : string;
  Status : string;
}.

Record ManagedCertificateStatus := {
  CertificateName : string;
  CertificateStatus : string;
  Status_DomainStatus : slice DomainStatus;
  ExpireTime : string;
}.

Record ManagedCertificateSpec := {
  Domains : list string;
}.

Record ManagedCertificate := {
  Namespace : string;
  Name : string;
  Spec : ManagedCertificateSpec;
  mcert_Status : ManagedCertificateStatus;
}.

Record Ingress := {
  Ingress_Namespace : string;
  Ingress_Name : string;
  Annotations : gmap string string;
}.

(** Assignments to the fields of [mcert.Status]. *)
Definition set_CertificateStatus (v : string) (mcert : ManagedCertificate)
  : ManagedCertificate :=
  {| Namespace := Namespace mcert; Name := Name mcert; Spec := Spec mcert;
     mcert_Status :=
       {| CertificateName := CertificateName (mcert_Status mcert);
          CertificateStatus := v;
          Status_DomainStatus := Status_DomainStatus (mcert_Status mcert);
          ExpireTime := ExpireTime (mcert_Status mcert) |} |}.

Definition set_DomainStatus (v : slice DomainStatus) (mcert : ManagedCertificate)
  : ManagedCertificate :=
  {| Namespace := Namespace mcert; Name := Name mcert; Spec := Spec mcert;
     mcert_Status :=
       {| CertificateName := CertificateName (mcert_Status mcert);
          CertificateStatus := CertificateStatus (mcert_Status mcert);
          Status_DomainStatus := v;
          ExpireTime := ExpireTime (mcert_Status mcert) |} |}.

Definition set_CertificateName (v : string) (mcert : ManagedCertificate)
  : ManagedCertificate :=
  {| Namespace := Namespace mcert; Name := Name mcert; Spec := Spec mcert;
     mcert_Status :=
       {| CertificateName := v;
          CertificateStatus := CertificateStatus (mcert_Status mcert);
          Status_DomainStatus := Status_DomainStatus (mcert_Status mcert);
          ExpireTime := ExpireTime (mcert_Status mcert) |} |}.

(** ** Status translation *)

Definition sslActive := "ACTIVE".
Definition sslFailedNotVisible := "FAILED_NOT_VISIBLE".
Definition sslFailedCaaChecking := "FAILED_CAA_CHECKING".
Definition sslFailedCaaForbidden := "FAILED_CAA_FORBIDDEN".
Definition sslFailedRateLimited := "FAILED_RATE_LIMITED".
Definition sslManagedCertificateStatusUnspecified :=
  "MANAGED_CERTIFICATE_STATUS_UNSPECIFIED".
Definition sslProvisioning := "PROVISIONING".
Definition sslProvisioningFailed := "PROVISIONING_FAILED".
Definition sslProvisioningFailedPermanently := "PROVISIONING_FAILED_PERMANENTLY".
Definition sslRenewalFailed := "RENEWAL_FAILED".

Definition translateDomainStatus (status : string) : result string :=
  if String.eqb status sslProvisioning then Ok "Provisioning"
  else if String.eqb status sslFailedNotVisible then Ok "FailedNotVisible"
  else if String.eqb status sslFailedCaaChecking then Ok "FailedCaaChecking"
  else if String.eqb status sslFailedCaaForbidden then Ok "FailedCaaForbidden"
  else if String.eqb status sslFailedRateLimited then Ok "FailedRateLimited"
  else if String.eqb status sslActive then Ok "Active"
  else Err (ErrUnexpectedDomainStatus status).

(** The [switch sslCert.Managed.Status] of [updateStatus]: the value it
    assigns to [mcert.Status.CertificateStatus], or [None] where it takes
    the [default] branch and returns an error. *)
Definition translateCertificateStatus (status : string) : option string :=
  if String.eqb status sslActive then Some "Active"
  else if String.eqb status sslManagedCertificateStatusUnspecified
          || String.eqb status ""
       then Some ""
  else if String.eqb status sslProvisioning then Some "Provisioning"
  else if String.eqb status sslProvisioningFailed then Some "ProvisioningFailed"
  else if String.eqb status sslProvisioningFailedPermanently
       then Some "ProvisioningFailedPermanently"
  else if String.eqb status sslRenewalFailed then Some "RenewalFailed"
  else None.

(** The loop of [updateStatus] over the per-domain statuses: [acc] is
    [domainStatus] so far, the result is the slice after the last
    iteration or the error the loop returns with. *)
Fixpoint translateDomainStatuses (acc : slice DomainStatus)
    (entries : list (string * string)) : result (slice DomainStatus) :=
  match entries with
  | [] => Ok acc
  | (domain, status) :: rest =>
      match translateDomainStatus status with
      | Err err => Err err
      | Ok translatedStatus =>
          translateDomainStatuses
            (append acc {| Domain := domain; Status := translatedStatus |})
            rest
      end
  end.

(** ** Annotation parsing *)

Definition annotation := "cloud.google.com/managed-certificates".
Definition splitBy := ",".

Definition parseAnnotation (annotationValue : string) : slice string :=
  if String.eqb annotationValue "" then slice_of []
  else slice_of (strings_Split annotationValue splitBy).

(** [cache.SplitMetaNamespaceKey] of client-go: one part is a name in
    the empty namespace, two parts are namespace and name, more is an
    error. *)
Definition SplitMetaNamespaceKey (key : string) : result (string * string) :=
  match strings_Split key "/" with
  | [name] => Ok ("", name)
  | [ns; name] => Ok (ns, name)
  | _ => Err (ErrUnexpectedKeyFormat key)
  end.

(** ** Collaborators

    The provider client and the Kubernetes client are interfaces to the
    controller; they are interfaces here, over the state of the system
    behind them.  A [Get] is a read: it answers from that state and
    leaves it as it is. *)

Class SslClient (P : Type) := {
  sslClient_Get : P -> string -> result SslCertificate;
  sslClient_Create : P -> string -> list string -> P * option error;
}.

Class Clientset (K : Type) := {
  ManagedCertificates_Update :
    K -> string -> ManagedCertificate -> K * option error;
  Ingress_client_Get : K -> string -> string -> result Ingress;
}.

(** A rate-limited work queue of client-go, as far as the workers use
    it: the items waiting, whether the queue is shutting down, and the
    items handed to [AddRateLimited], which come back after their delay. *)
Record Queue := {
  items : list Item;
  shuttingDown : bool;
  delayed : list Item;
}.

Inductive QueueName := mcertQueue | ingressQueue.

(** The calls the workers make, in the order they make them.  A call
    of [Create] and a call of [utils.RandomName] are recorded with what
    they returned. *)
Inductive Event :=
| StateGet (name : string)
| StatePut (name sslCertificateName : string)
| SslGet (name : string)
| SslCreate (name : string) (domains : list string) (err : option error)
| RandomName (outcome : result string)
| ListerGet (ns name : string)
| McertUpdate (ns : string) (mcert : ManagedCertificate)
| IngressGet (ns name : string)
| McertEnqueue (mcert : ManagedCertificate)
| QueueGet (q : QueueName)
| QueueDone (q : QueueName) (obj : Item)
| QueueForget (q : QueueName) (obj : Item)
| QueueAddRateLimited (q : QueueName) (obj : Item)
| HandleError (err : error).

Definition isSslCreate (ev : Event) : bool :=
  match ev with SslCreate _ _ _ => true | _ => false end.

Definition isStatePut (ev : Event) : bool :=
  match ev with StatePut _ _ => true | _ => false end.

Definition isSslGet (ev : Event) : bool :=
  match ev with SslGet _ => true | _ => false end.

Definition isRandomName (ev : Event) : bool :=
  match ev with RandomName _ => true | _ => false end.

(** A [Create] that returned an error, a name generation that did. *)
Definition isFailedCreate (ev : Event) : bool :=
  match ev with SslCreate _ _ (Some _) => true | _ => false end.

Definition isFailedRandomName (ev : Event) : bool :=
  match ev with RandomName (Err _) => true | _ => false end.

(** The provider certificate name a provider call is made with. *)
Definition sslName (ev : Event) : option string :=
  match ev with
  | SslGet name => Some name
  | SslCreate name _ _ => Some name
  | _ => None
  end.

Definition isMcertUpdate (ev : Event) : bool :=
  match ev with McertUpdate _ _ => true | _ => false end.

Definition isAddRateLimited (ev : Event) : bool :=
  match ev with QueueAddRateLimited _ _ => true | _ => false end.

(** The key an Identity Store call is made with. *)
Definition stateKey (ev : Event) : option string :=
  match ev with
  | StateGet name => Some name
  | StatePut name _ => Some name
  | _ => None
  end.

Definition countEvents (p : Event -> bool) (evs : list Event) : nat :=
  List.length (filter (fun ev => p ev = true) evs).

Definition MetaNamespaceKey (ns name : string) : string :=
  if String.eqb ns "" then name else ns +:+ "/" +:+ name.

Definition sameObject (ns name : string) (mcert : ManagedCertificate) : bool :=
  String.eqb (Namespace mcert) ns && String.eqb (Name mcert) name.

(** The lister's cache: the objects themselves, found by their own
    namespace and name. *)
Fixpoint cache_find (ns name : string) (objs : list ManagedCertificate)
  : option ManagedCertificate :=
  match objs with
  | [] => None
  | mcert :: rest =>
      if sameObject ns name mcert then Some mcert else cache_find ns name rest
  end.

(** The lister hands out a pointer to the cached object, so what a
    caller assigns through the pointer is assigned to the cached object:
    [cache_assign mcert] puts [mcert] where the object of the same
    namespace and name is found. *)
Fixpoint cache_assign (mcert : ManagedCertificate)
    (objs : list ManagedCertificate) : list ManagedCertificate :=
  match objs with
  | [] => []
  | obj :: rest =>
      if sameObject (Namespace mcert) (Name mcert) obj then mcert :: rest
      else obj :: cache_assign mcert rest
  end.

(** What the next call of [utils.RandomName] returns, given the outcomes
    still to come: without any left, generation fails. *)
Definition nextRandom (outcomes : list (result string)) : result string :=
  match outcomes with
  | [] => Err (CollaboratorError "no randomness")
  | outcome :: _ => outcome
  end.

Section Controller.

Context {P K : Type} `{SslClient P} `{Clientset K}.

(** The controller's own state and the state of what it talks to.
    [entropy] holds the outcomes of the calls of [utils.RandomName] still
    to come. *)
Record World := {
  state : gmap string string;
  lister : list ManagedCertificate;
  Mcert_queue : Queue;
  Ingress_queue : Queue;
  sslClient : P;
  client : K;
  entropy : list (result string);
}.

Definition with_state (v : gmap string string) (w : World) : World :=
  {| state := v; lister := lister w; Mcert_queue := Mcert_queue w;
     Ingress_queue := Ingress_queue w; sslClient := sslClient w;
     client := client w; entropy := entropy w |}.

Definition with_lister (v : list ManagedCertificate) (w : World) : World :=
  {| state := state w; lister := v; Mcert_queue := Mcert_queue w;
     Ingress_queue := Ingress_queue w; sslClient := sslClient w;
     client := client w; entropy := entropy w |}.

Definition with_Mcert_queue (v : Queue) (w : World) : World :=
  {| state := state w; lister := lister w; Mcert_queue := v;
     Ingress_queue := Ingress_queue w; sslClient := sslClient w;
     client := client w; entropy := entropy w |}.

Definition with_Ingress_queue (v : Queue) (w : World) : World :=
  {| state := state w; lister := lister w; Mcert_queue := Mcert_queue w;
     Ingress_queue := v; sslClient := sslClient w;
     client := client w; entropy := entropy w |}.

Definition with_sslClient (v : P) (w : World) : World :=
  {| state := state w; lister := lister w; Mcert_queue := Mcert_queue w;
     Ingress_queue := Ingress_queue w; sslClient := v;
     client := client w; entropy := entropy w |}.

Definition with_client (v : K) (w : World) : World :=
  {| state := state w; lister := lister w; Mcert_queue := Mcert_queue w;
     Ingress_queue := Ingress_queue w; sslClient := sslClient w;
     client := v; entropy := entropy w |}.

Definition with_entropy (v : list (result string)) (w : World) : World :=
  {| state := state w; lister := lister w; Mcert_queue := Mcert_queue w;
     Ingress_queue := Ingress_queue w; sslClient := sslClient w;
     client := client w; entropy := v |}.

Definition queue_of (q : QueueName) (w : World) : Queue :=
  match q with
  | mcertQueue => Mcert_queue w
  | ingressQueue => Ingress_queue w
  end.

Definition with_queue (q : QueueName) (v : Queue) (w : World) : World :=
  match q with
  | mcertQueue => with_Mcert_queue v w
  | ingressQueue => with_Ingress_queue v w
  end.

(** A computation: from a world to its value, the world after it and the
    calls it made, in order. *)
Definition M (A : Type) : Type := World -> A * World * list Event.

Definition ret {A : Type} (a : A) : M A := fun w => (a, w, []).

Definition bind {A B : Type} (m : M A) (k : A -> M B) : M B :=
  fun w =>
    let '(a, w1, evs1) := m w in
    let '(b, w2, evs2) := k a w1 in
    (b, w2, evs1 ++ evs2).

Definition value {A : Type} (r : A * World * list Event) : A := r.1.1.
Definition after {A : Type} (r : A * World * list Event) : World := r.1.2.
Definition calls {A : Type} (r : A * World * list Event) : list Event := r.2.

End Controller.

Notation "'let*' x ':=' m 'in' k" := (bind m (fun x => k))
  (at level 10, x pattern, m at level 100, k at level 200).

Section Operations.

Context {P K : Type} `{SslClient P} `{Clientset K}.

Abbreviation World := (@World P K).
Abbreviation M := (@M P K).

(** *** Calls to the collaborators *)

(** [c.state.Get(name)]: the value and whether there is one. *)
Definition state_Get (name : string) : M (string * bool) :=
  fun w =>
    (match state w !! name with
     | Some sslCertificateName => (sslCertificateName, true)
     | None => ("", false)
     end, w, [StateGet name]).

(** [c.state.Put(name, sslCertificateName)] *)
Definition state_Put (name sslCertificateName : string) : M unit :=
  fun w =>
    (tt, with_state (<[name := sslCertificateName]> (state w)) w,
     [StatePut name sslCertificateName]).

(** [c.sslClient.Get(name)] *)
Definition c_sslClient_Get (name : string) : M (result SslCertificate) :=
  fun w => (sslClient_Get (sslClient w) name, w, [SslGet name]).

(** [c.sslClient.Create(name, domains)] *)
Definition c_sslClient_Create (name : string) (domains : list string)
  : M (option error) :=
  fun w =>
    let '(p, err) := sslClient_Create (sslClient w) name domains in
    (err, with_sslClient p w, [SslCreate name domains err]).

(** [utils.RandomName()] *)
Definition utils_RandomName : M (result string) :=
  fun w =>
    (nextRandom (entropy w), with_entropy (tail (entropy w)) w,
     [RandomName (nextRandom (entropy w))]).

(** [c.lister.ManagedCertificates(ns).Get(name)] *)
Definition lister_Get (ns name : string) : M (result ManagedCertificate) :=
  fun w =>
    (match cache_find ns name (lister w) with
     | Some mcert => Ok mcert
     | None => Err (CollaboratorError "managedcertificate not found")
     end, w, [ListerGet ns name]).

(** [c.client.GkeV1alpha1().ManagedCertificates(ns).Update(mcert)] *)
Definition client_Update (ns : string) (mcert : ManagedCertificate)
  : M (option error) :=
  fun w =>
    let '(k, err) := ManagedCertificates_Update (client w) ns mcert in
    (err, with_client k w, [McertUpdate ns mcert]).

(** [c.Ingress.client.Get(ns, name)] *)
Definition Ingress_Get (ns name : string) : M (result Ingress) :=
  fun w => (Ingress_client_Get (client w) ns name, w, [IngressGet ns name]).

(** [runtime.HandleError(err)]: the error is logged. *)
Definition runtime_HandleError (err : error) : M unit :=
  fun w => (tt, w, [HandleError err]).

(** What the caller assigned through the pointer the lister gave. *)
Definition assign (mcert : ManagedCertificate) : M unit :=
  fun w => (tt, with_lister (cache_assign mcert (lister w)) w, []).

(** [queue.Get()]: [None] while the call blocks (nothing waits and the
    queue is not shutting down), else the item and the shutdown flag. *)
Definition queue_Get (q : QueueName) : M (option (Item * bool)) :=
  fun w =>
    match items (queue_of q w) with
    | [] =>
        if shuttingDown (queue_of q w)
        then (Some (NilItem, true), w, [QueueGet q])
        else (None, w, [])
    | obj :: rest =>
        (Some (obj, false),
         with_queue q {| items := rest;
                         shuttingDown := shuttingDown (queue_of q w);
                         delayed := delayed (queue_of q w) |} w,
         [QueueGet q])
    end.

Definition queue_Done (q : QueueName) (obj : Item) : M unit :=
  fun w => (tt, w, [QueueDone q obj]).

Definition queue_Forget (q : QueueName) (obj : Item) : M unit :=
  fun w => (tt, w, [QueueForget q obj]).

Definition queue_AddRateLimited (q : QueueName) (obj : Item) : M unit :=
  fun w =>
    (tt,
     with_queue q {| items := items (queue_of q w);
                     shuttingDown := shuttingDown (queue_of q w);
                     delayed := delayed (queue_of q w) ++ [obj] |} w,
     [QueueAddRateLimited q obj]).

(** Modelled from the spec: [McertController.enqueue], which is called by
    [handleIngress] and is not part of the files at hand.  Section 4.3
    has the reconciler enqueue the key of each resolved ManagedCertificate
    into the Mcert queue, and section 4.1 has an add of a key that is
    already waiting collapse into the one that waits. *)
Definition Mcert_enqueue (mcert : ManagedCertificate) : M unit :=
  fun w =>
    let obj := StringItem (MetaNamespaceKey (Namespace mcert) (Name mcert)) in
    let q := Mcert_queue w in
    (tt,
     with_Mcert_queue
       {| items := if bool_decide (obj ∈ items q) then items q
                   else items q ++ [obj];
          shuttingDown := shuttingDown q;
          delayed := delayed q |} w,
     [McertEnqueue mcert]).

End Operations.

(** ** The ManagedCertificate worker *)

Section McertController.

Context {P K : Type} `{SslClient P} `{Clientset K}.

Abbreviation M := (@M P K).

(** [updateStatus] works on the object its pointer argument points to;
    the object as the call leaves it is returned next to the error. *)
Definition updateStatus (mcert : ManagedCertificate)
  : M (ManagedCertificate * option error) :=
  let* (sslCertificateName, exists_) := state_Get (Name mcert) in
  if negb exists_ then ret (mcert, Some (ErrNotInState (Name mcert)))
  else
    let* got := c_sslClient_Get sslCertificateName in
    match got with
    | Err err => ret (mcert, Some err)
    | Ok sslCert =>
        match translateCertificateStatus (Managed_Status (Managed sslCert)) with
        | None =>
            ret (mcert,
                 Some (ErrUnexpectedStatus (Managed_Status (Managed sslCert))
                         sslCert))
        | Some certificateStatus =>
            let mcert := set_CertificateStatus certificateStatus mcert in
            match translateDomainStatuses nil_slice
                    (Managed_DomainStatus (Managed sslCert)) with
            | Err err => ret (mcert, Some err)
            | Ok domainStatus =>
                let mcert := set_DomainStatus domainStatus mcert in
                let mcert :=
                  set_CertificateName (SslCertificate_Name sslCert) mcert in
                let* err := client_Update (Namespace mcert) mcert in
                ret (mcert, err)
            end
        end
    end.

Definition createSslCertificateIfNeeded (sslCertificateName : string)
    (mcert : ManagedCertificate) : M (option error) :=
  let* got := c_sslClient_Get sslCertificateName in
  match got with
  | Err _ =>
      (* SslCertificate does not yet exist, create it *)
      let* err := c_sslClient_Create sslCertificateName (Domains (Spec mcert)) in
      match err with
      | Some err => ret (Some err)
      | None => ret None
      end
  | Ok _ => ret None
  end.

Definition randomName : M (result string) :=
  let* generated := utils_RandomName in
  match generated with
  | Err err => ret (Err err)
  | Ok name =>
      let* got := c_sslClient_Get name in
      match got with
      | Ok _ =>
          (* Name taken, choose a new one *)
          let* generated := utils_RandomName in
          match generated with
          | Err err => ret (Err err)
          | Ok name => ret (Ok name)
          end
      | Err _ => ret (Ok name)
      end
  end.

Definition createSslCertificateNameIfNeeded (name : string) : M (result string) :=
  let* (sslCertificateName, exists_) := state_Get name in
  if exists_ && negb (String.eqb sslCertificateName "")
  then ret (Ok sslCertificateName)
  else
    (* State does not have anything for this managed certificate or no
       SslCertificate is associated with it *)
    let* generated := randomName in
    match generated with
    | Err err => ret (Err err)
    | Ok sslCertificateName =>
        let* _ := state_Put name sslCertificateName in
        ret (Ok sslCertificateName)
    end.

Definition handleMcert (key : string) : M (option error) :=
  match SplitMetaNamespaceKey key with
  | Err err => ret (Some err)
  | Ok (ns, name) =>
      let* found := lister_Get ns name in
      match found with
      | Err err => ret (Some err)
      | Ok mcert =>
          let* named := createSslCertificateNameIfNeeded name in
          match named with
          | Err err => ret (Some err)
          | Ok sslCertificateName =>
              let* err := createSslCertificateIfNeeded sslCertificateName mcert in
              match err with
              | Some err => ret (Some err)
              | None =>
                  let* (mcert, err) := updateStatus mcert in
                  let* _ := assign mcert in
                  ret err
              end
          end
      end
  end.

(** The type assertion [obj.(string)]: the key and [true], or the zero
    value and [false]. *)
Definition assertString (obj : Item) : string * bool :=
  match obj with
  | StringItem key => (key, true)
  | OtherItem _ _ | NilItem => ("", false)
  end.

(** [processNext]; [None] while [c.queue.Get()] blocks.  The deferred
    [c.queue.Done(obj)] runs as the function returns. *)
Definition processNext : M (option bool) :=
  let* got := queue_Get mcertQueue in
  match got with
  | None => ret None
  | Some (_, true) => ret (Some false)
  | Some (obj, false) =>
      let '(key, ok) := assertString obj in
      let* _ :=
        if negb ok then
          let* _ := queue_Forget mcertQueue obj in
          runtime_HandleError (ErrExpectedString "mcertQueue" obj)
        else ret tt in
      let* err := handleMcert key in
      let* _ :=
        match err with
        | Some err =>
            let* _ := queue_AddRateLimited mcertQueue obj in
            runtime_HandleError err
        | None => ret tt
        end in
      let* _ := queue_Forget mcertQueue obj in
      let* _ := queue_Done mcertQueue obj in
      ret (Some true)
  end.

(** ** The Ingress worker *)

(** The body of the loop of [handleIngress] over the names of the
    annotation, for the names still to visit. *)
Fixpoint handleIngress_names (ns : string) (names : list string) : M unit :=
  match names with
  | [] => ret tt
  | name :: rest =>
      (* Assume the namespace is the same as ingress's *)
      let* found := lister_Get ns name in
      let* _ :=
        match found with
        | Err err => runtime_HandleError err
        | Ok mcert => Mcert_enqueue mcert
        end in
      handleIngress_names ns rest
  end.

Definition handleIngress (key : string) : M (option error) :=
  match SplitMetaNamespaceKey key with
  | Err err => ret (Some err)
  | Ok (ns, name) =>
      let* got := Ingress_Get ns name in
      match got with
      | Err err => ret (Some err)
      | Ok ing =>
          match Annotations ing !! annotation with
          | None =>
              (* There is no annotation on this ingress *)
              ret None
          | Some annotationValue =>
              let* _ :=
                handleIngress_names ns (range (parseAnnotation annotationValue)) in
              ret None
          end
      end
  end.

(** [processNextIngress]; [None] while [c.Ingress.queue.Get()] blocks. *)
Definition processNextIngress : M (option bool) :=
  let* got := queue_Get ingressQueue in
  match got with
  | None => ret None
  | Some (_, true) => ret (Some false)
  | Some (obj, false) =>
      let* err :=
        let '(key, ok) := assertString obj in
        let* result :=
          if negb ok then
            let* _ := queue_Forget ingressQueue obj in
            ret (Some (ErrExpectedString "ingressQueue" obj))
          else
            let* err := handleIngress key in
            match err with
            | Some err =>
                let* _ := queue_AddRateLimited ingressQueue obj in
                ret (Some err)
            | None =>
                let* _ := queue_Forget ingressQueue obj in
                ret None
            end in
        let* _ := queue_Done ingressQueue obj in
        ret result in
      let* _ :=
        match err with
        | Some err => runtime_HandleError err
        | None => ret tt
        end in
      ret (Some true)
  end.

End McertController.

(** ** A provider and a cluster to run the workers against

    A provider that holds its certificates by name, refuses a name it
    already holds and refuses every creation beyond its quota; a new
    certificate starts out [PROVISIONING] with no per-domain status yet.
    A cluster that holds Ingress objects and accepts or refuses updates of
    ManagedCertificates as [updateError] says. *)

Record FakeProvider := {
  certificates : gmap string SslCertificate;
  quota : nat;
}.

Definition newSslCertificate (name : string) : SslCertificate :=
  {| SslCertificate_Name := name;
     SslCertificate_ExpireTime := "";
     Managed := {| Managed_Status := sslProvisioning;
                   Managed_DomainStatus := [] |} |}.

Global Instance FakeProvider_SslClient : SslClient FakeProvider := {
  sslClient_Get p name :=
    match certificates p !! name with
    | Some sslCert => Ok sslCert
    | None => Err (CollaboratorError "sslcertificate not found")
    end;
  sslClient_Create p name domains :=
    match certificates p !! name with
    | Some _ => (p, Some (CollaboratorError "sslcertificate already exists"))
    | None =>
        if bool_decide (size (certificates p) < quota p)%nat
        then ({| certificates :=
                   <[name := newSslCertificate name]> (certificates p);
                 quota := quota p |}, None)
        else (p, Some (CollaboratorError "quota exceeded"))
    end;
}.

Record FakeCluster := {
  ingresses : list Ingress;
  updateError : option error;
  updated : list ManagedCertificate;
}.

Fixpoint ingress_find (ns name : string) (objs : list Ingress) : option Ingress :=
  match objs with
  | [] => None
  | ing :: rest =>
      if String.eqb (Ingress_Namespace ing) ns && String.eqb (Ingress_Name ing) name
      then Some ing
      else ingress_find ns name rest
  end.

Global Instance FakeCluster_Clientset : Clientset FakeCluster := {
  ManagedCertificates_Update k ns mcert :=
    match updateError k with
    | Some err => (k, Some err)
    | None =>
        ({| ingresses := ingresses k; updateError := None;
            updated := updated k ++ [mcert] |}, None)
    end;
  Ingress_client_Get k ns name :=
    match ingress_find ns name (ingresses k) with
    | Some ing => Ok ing
    | None => Err (CollaboratorError "ingress not found")
    end;
}.

Definition emptyQueue : Queue :=
  {| items := []; shuttingDown := false; delayed := [] |}.

Definition newManagedCertificate (ns name : string) (domains : list string)
  : ManagedCertificate :=
  {| Namespace := ns; Name := name; Spec := {| Domains := domains |};
     mcert_Status := {| CertificateName := ""; CertificateStatus := "";
                        Status_DomainStatus := nil_slice; ExpireTime := "" |} |}.

Definition FakeWorld := @World FakeProvider FakeCluster.

(** The scenario of the spec: ManagedCertificate [ns/foo] for
    [example.com], an empty Identity Store, an empty provider, and [g1]
    the next random name. *)
Definition scenario : FakeWorld :=
  {| state := ∅;
     lister := [newManagedCertificate "ns" "foo" ["example.com"]];
     Mcert_queue := emptyQueue;
     Ingress_queue := emptyQueue;
     sslClient := {| certificates := ∅; quota := 10 |};
     client := {| ingresses := []; updateError := None; updated := [] |};
     entropy := [Ok "g1"; Ok "g2"] |}.

(** A leading, a trailing or a doubled separator. *)
Definition emptySegment (annotationValue : string) : Prop :=
  (exists t, annotationValue = "," +:+ t) \/
  (exists t, annotationValue = t +:+ ",") \/
  (exists t1 t2, annotationValue = t1 +:+ ",," +:+ t2).

(** The status codes the two translations have a case for. *)
Definition certificateStatusCodes : list string :=
  [sslActive; sslManagedCertificateStatusUnspecified; "";
   sslProvisioning; sslProvisioningFailed;
   sslProvisioningFailedPermanently; sslRenewalFailed].

Definition domainStatusCodes : list string :=
  [sslProvisioning; sslFailedNotVisible; sslFailedCaaChecking;
   sslFailedCaaForbidden; sslFailedRateLimited; sslActive].

(** Worlds to run [updateStatus] in: ManagedCertificate [ns/foo] is
    mapped to [g1], and the provider holds [g1] with the given overall
    status and per-domain statuses. *)
Definition issuedCertificate (status : string)
    (domains : list (string * string)) : SslCertificate :=
  {| SslCertificate_Name := "g1";
     SslCertificate_ExpireTime := "";
     Managed := {| Managed_Status := status;
                   Managed_DomainStatus := domains |} |}.

Definition issued (status : string) (domains : list (string * string))
  : FakeWorld :=
  {| state := {["foo" := "g1"]};
     lister := [newManagedCertificate "ns" "foo" ["example.com"]];
     Mcert_queue := emptyQueue;
     Ingress_queue := emptyQueue;
     sslClient := {| certificates := {["g1" := issuedCertificate status domains]};
                     quota := 10 |};
     client := {| ingresses := []; updateError := None; updated := [] |};
     entropy := [] |}.

(** A provider that already holds both of the names the generator is
    about to produce. *)
Definition crowded : FakeWorld :=
  {| state := ∅;
     lister := [newManagedCertificate "ns" "foo" ["example.com"]];
     Mcert_queue := emptyQueue;
     Ingress_queue := emptyQueue;
     sslClient := {| certificates := {["g1" := newSslCertificate "g1"; "g2" := newSslCertificate "g2"]};
                     quota := 10 |};
     client := {| ingresses := []; updateError := None; updated := [] |};
     entropy := [Ok "g1"; Ok "g2"] |}.

(** The scenario with a generator that fails. *)
Definition noRandomness : FakeWorld :=
  with_entropy [Err (CollaboratorError "rand: read failed")] scenario.


(** What the provider's contract adds to the types of its operations: a
    certificate whose creation succeeded can be fetched. *)
Definition CreateThenGet (P : Type) `{SslClient P} : Prop :=
  forall (p p' : P) (name : string) (domains : list string),
    sslClient_Create p name domains = (p', None) ->
    exists sslCert, sslClient_Get p' name = Ok sslCert.

(** A cluster with one Ingress, [ns/ing], carrying the annotation with
    the given value, and a lister that knows ManagedCertificate [ns/a]
    and no other. *)
Definition annotated (annotationValue : string) : FakeWorld :=
  {| state := ∅;
     lister := [newManagedCertificate "ns" "a" ["a.example.com"]];
     Mcert_queue := emptyQueue;
     Ingress_queue := emptyQueue;
     sslClient := {| certificates := ∅; quota := 10 |};
     client := {| ingresses :=
                    [{| Ingress_Namespace := "ns"; Ingress_Name := "ing";
                        Annotations := {[annotation := annotationValue]} |}];
                  updateError := None; updated := [] |};
     entropy := [] |}.

(** The scenario with an item that is not a string, the integer 42,
    waiting in the Mcert queue, and the same with the item in the
    Ingress queue. *)
Definition notAString : Item := OtherItem "int" "42".

Definition strayMcertItem : FakeWorld :=
  with_Mcert_queue
    {| items := [notAString]; shuttingDown := false; delayed := [] |} scenario.

Definition strayIngressItem : FakeWorld :=
  with_Ingress_queue
    {| items := [notAString]; shuttingDown := false; delayed := [] |} scenario.

(** Two ManagedCertificates of one name, [foo], in two namespaces. *)
Definition twoNamespaces : FakeWorld :=
  with_lister [newManagedCertificate "ns1" "foo" ["one.example.com"];
               newManagedCertificate "ns2" "foo" ["two.example.com"]]
    scenario.

(** ** The worker loops *)

(** How a worker loop stands after a number of iterations: it has
    returned, it is blocked in [queue.Get()], or it is still running. *)
Inductive LoopState := returned | blocked | running.

Section Loops.

Context {P K : Type} `{SslClient P} `{Clientset K}.

(** [runWorker]: [for c.processNext() {}], for at most [fuel] iterations. *)
Fixpoint runWorker (fuel : nat) : @M P K LoopState :=
  match fuel with
  | O => ret running
  | S fuel' =>
      let* next := processNext in
      match next with
      | None => ret blocked
      | Some true => runWorker fuel'
      | Some false => ret returned
      end
  end.

(** [runIngressWorker]: [for c.processNextIngress() {}], for at most
    [fuel] iterations. *)
Fixpoint runIngressWorker (fuel : nat) : @M P K LoopState :=
  match fuel with
  | O => ret running
  | S fuel' =>
      let* next := processNextIngress in
      match next with
      | None => ret blocked
      | Some true => runIngressWorker fuel'
      | Some false => ret returned
      end
  end.

End Loops.

(** The item a [Done], a [Forget] or an [AddRateLimited] is called with. *)
Definition doneItem (ev : Event) : option Item :=
  match ev with QueueDone _ obj => Some obj | _ => None end.

Definition isForget (ev : Event) : bool :=
  match ev with QueueForget _ _ => true | _ => false end.

Definition isQueueCall (ev : Event) : bool :=
  match ev with
  | QueueGet _ | QueueDone _ _ | QueueForget _ _ | QueueAddRateLimited _ _ => true
  | _ => false
  end.

Definition isListerGet (ev : Event) : bool :=
  match ev with ListerGet _ _ => true | _ => false end.

(** The ManagedCertificate a call of [c.Mcert.enqueue] is made with. *)
Definition enqueued (ev : Event) : option ManagedCertificate :=
  match ev with McertEnqueue mcert => Some mcert | _ => None end.

(** How often a byte occurs in a string. *)
Fixpoint countByte (c : ascii) (s : string) : nat :=
  match s with
  | EmptyString => 0
  | String c' s' => (if Ascii.eqb c' c then 1 else 0) + countByte c s'
  end.

(** What [handleMcert] never changes of an object in the lister's cache. *)
Definition identityAndSpec (mcert : ManagedCertificate)
  : string * string * ManagedCertificateSpec * string :=
  (Namespace mcert, Name mcert, Spec mcert, ExpireTime (mcert_Status mcert)).

(** The world [issued] with a cluster that refuses updates. *)
Definition refusedUpdate (status : string) (domains : list (string * string))
  : FakeWorld :=
  with_client {| ingresses := [];
                 updateError := Some (CollaboratorError "conflict");
                 updated := [] |}
    (issued status domains).

Section QueueSteps.

Context {P K : Type}.

(** The world as [queue.Get()] leaves it when it hands out the first
    item, and as [queue.AddRateLimited(obj)] leaves it. *)
Definition dequeued (q : QueueName) (w : @World P K) : @World P K :=
  with_queue q {| items := tail (items (queue_of q w));
                  shuttingDown := shuttingDown (queue_of q w);
                  delayed := delayed (queue_of q w) |} w.

Definition addedRateLimited (q : QueueName) (obj : Item) (w : @World P K)
  : @World P K :=
  with_queue q {| items := items (queue_of q w);
                  shuttingDown := shuttingDown (queue_of q w);
                  delayed := delayed (queue_of q w) ++ [obj] |} w.

End QueueSteps.

(** The scenario with keys waiting in the Mcert queue, which is shutting
    down; and the annotated cluster with a key waiting in the Ingress
    queue, which is not. *)
Definition mcertKeysWaiting (keys : list string) : FakeWorld :=
  with_Mcert_queue
    {| items := StringItem <$> keys; shuttingDown := true; delayed := [] |}
    scenario.

Definition ingressKeysWaiting (annotationValue : string) (keys : list string)
  : FakeWorld :=
  with_Ingress_queue
    {| items := StringItem <$> keys; shuttingDown := false; delayed := [] |}
    (annotated annotationValue).

(** The namespace and name a lister lookup is made with. *)
Definition listerLookup (ev : Event) : option (string * string) :=
  match ev with ListerGet ns name => Some (ns, name) | _ => None end.

(** How often a name occurs among the pieces of an annotation. *)
Definition occurrences (name : string) (names : list string) : nat :=
  length (filter (fun piece => piece = name) names).

(** What the loop of [updateStatus] appends for an entry with a
    recognised status. *)
Definition translatedEntry (entry : string * string) : DomainStatus :=
  {| Domain := entry.1;
     Status := match translateDomainStatus entry.2 with
               | Ok translatedStatus => translatedStatus
               | Err _ => ""
               end |}.

(** * Properties *)

(** ** Splitting *)

Example parseAnnotation_empty : parseAnnotation "" = slice_of [].
Proof. reflexivity. Qed.

Example parseAnnotation_ab : parseAnnotation "a,b" = slice_of ["a"; "b"].
Proof. reflexivity. Qed.

Example SplitMetaNamespaceKey_ns_foo :
  SplitMetaNamespaceKey "ns/foo" = Ok ("ns", "foo").
Proof. reflexivity. Qed.

Example SplitMetaNamespaceKey_empty : SplitMetaNamespaceKey "" = Ok ("", "").
Proof. reflexivity. Qed.

Example SplitMetaNamespaceKey_three :
  SplitMetaNamespaceKey "a/b/c" = Err (ErrUnexpectedKeyFormat "a/b/c").
Proof. reflexivity. Qed.

Lemma genSplit_not_nil sep s skip : genSplit sep s skip <> [].
Proof.
  revert skip. induction s as [|c s IH]; intros skip; cbn [genSplit]; [done|].
  destruct skip as [|k]; [|apply IH].
  destruct (String.prefix sep (String c s)); [done|].
  destruct (genSplit sep s 0); done.
Qed.

Lemma Split_comma_nil : strings_Split "" splitBy = [""].
Proof. reflexivity. Qed.

Lemma Split_comma_sep s :
  strings_Split (String "," s) splitBy = "" :: strings_Split s splitBy.
Proof.
  unfold strings_Split, splitBy. cbn [genSplit String.prefix].
  destruct (ascii_dec "," ",") as [_|Hne]; [|congruence].
  destruct s; reflexivity.
Qed.

Lemma Split_comma_other c s :
  c <> ","%char ->
  strings_Split (String c s) splitBy =
  match strings_Split s splitBy with
  | seg :: segs => String c seg :: segs
  | [] => [String c ""]
  end.
Proof.
  intros Hc. unfold strings_Split, splitBy. cbn [genSplit String.prefix].
  destruct (ascii_dec "," c) as [Heq|_]; [congruence|reflexivity].
Qed.

Lemma Split_comma_app a b :
  strings_Split (a +:+ "," +:+ b) splitBy =
  strings_Split a splitBy ++ strings_Split b splitBy.
Proof.
  induction a as [|c a IH].
  - change ("" +:+ "," +:+ b) with (String "," b).
    rewrite Split_comma_sep. reflexivity.
  - change (String c a +:+ "," +:+ b) with (String c (a +:+ "," +:+ b)).
    destruct (ascii_dec c ",") as [->|Hc].
    + rewrite !Split_comma_sep, IH. reflexivity.
    + rewrite !Split_comma_other, IH by exact Hc.
      destruct (strings_Split a splitBy) as [|seg segs] eqn:Ha; [|reflexivity].
      exfalso. revert Ha. apply genSplit_not_nil.
Qed.

Lemma concat_cons_char c seg segs :
  String.concat "," (String c seg :: segs) =
  String c (String.concat "," (seg :: segs)).
Proof. destruct segs; reflexivity. Qed.

(** Joining the pieces with the separator gives the string back: no
    piece is dropped or trimmed. *)
Lemma Split_comma_concat s : String.concat "," (strings_Split s splitBy) = s.
Proof.
  induction s as [|c s IH]; [reflexivity|].
  destruct (ascii_dec c ",") as [->|Hc].
  - rewrite Split_comma_sep.
    destruct (strings_Split s splitBy) as [|seg segs] eqn:Hs.
    + exfalso. revert Hs. apply genSplit_not_nil.
    + change (String.concat "," ("" :: seg :: segs))
        with (String "," (String.concat "," (seg :: segs))).
      rewrite IH. reflexivity.
  - rewrite Split_comma_other by exact Hc.
    destruct (strings_Split s splitBy) as [|seg segs] eqn:Hs.
    + exfalso. revert Hs. apply genSplit_not_nil.
    + rewrite concat_cons_char, IH. reflexivity.
Qed.

Lemma append_nil_r s : s +:+ "" = s.
Proof.
  induction s as [|c s IH]; [reflexivity|].
  change (String c s +:+ "") with (String c (s +:+ "")). by rewrite IH.
Qed.

Lemma append_assoc s t u : (s +:+ t) +:+ u = s +:+ t +:+ u.
Proof.
  induction s as [|c s IH]; [reflexivity|].
  change (String c ((s +:+ t) +:+ u) = String c (s +:+ t +:+ u)).
  by rewrite IH.
Qed.

Lemma emptySegment_not_empty v : emptySegment v -> v <> "".
Proof.
  intros [[t ->]|[[t ->]|(t1 & t2 & ->)]].
  - discriminate.
  - destruct t; discriminate.
  - destruct t1; discriminate.
Qed.

Lemma emptySegment_Split v : emptySegment v -> "" ∈ strings_Split v splitBy.
Proof.
  intros [[t ->]|[[t ->]|(t1 & t2 & ->)]].
  - change ("," +:+ t) with (String "," t). rewrite Split_comma_sep.
    apply list_elem_of_here.
  - rewrite <- (append_nil_r (t +:+ ",")), append_assoc.
    rewrite Split_comma_app, Split_comma_nil.
    apply elem_of_app. right. apply list_elem_of_here.
  - change (t1 +:+ ",," +:+ t2) with (t1 +:+ "," +:+ String "," t2).
    rewrite Split_comma_app, Split_comma_sep.
    apply elem_of_app. right. apply list_elem_of_here.
Qed.

Lemma parseAnnotation_not_empty v :
  v <> "" -> parseAnnotation v = slice_of (strings_Split v splitBy).
Proof.
  intros Hv. unfold parseAnnotation.
  destruct (String.eqb_spec v ""); [contradiction|reflexivity].
Qed.

(** ** Status translation *)

Lemma translateCertificateStatus_unknown status :
  status ∉ certificateStatusCodes -> translateCertificateStatus status = None.
Proof.
  intros Hnot. unfold translateCertificateStatus.
  repeat match goal with
  | |- context [String.eqb status ?c] =>
      destruct (String.eqb_spec status c) as [->|_];
      [exfalso; apply Hnot; unfold certificateStatusCodes; set_solver|]
  end.
  reflexivity.
Qed.

Lemma translateCertificateStatus_known status :
  status ∈ certificateStatusCodes -> is_Some (translateCertificateStatus status).
Proof.
  unfold certificateStatusCodes. rewrite !elem_of_cons, elem_of_nil.
  intros Hin. decompose [or] Hin; subst; try (eexists; reflexivity); done.
Qed.

Lemma translateDomainStatus_unknown status :
  status ∉ domainStatusCodes ->
  translateDomainStatus status = Err (ErrUnexpectedDomainStatus status).
Proof.
  intros Hnot. unfold translateDomainStatus.
  repeat match goal with
  | |- context [String.eqb status ?c] =>
      destruct (String.eqb_spec status c) as [->|_];
      [exfalso; apply Hnot; unfold domainStatusCodes; set_solver|]
  end.
  reflexivity.
Qed.

(** C3, as the code has it: each recognised overall-status code and
    each recognised per-domain code is translated to its user-facing
    string, where the code for the unspecified overall status is
    [MANAGED_CERTIFICATE_STATUS_UNSPECIFIED]; every other input makes the
    translation fail, and none is given a default. *)
Theorem status_translation_exhaustive :
  (translateCertificateStatus "ACTIVE" = Some "Active" /\
   translateCertificateStatus "" = Some "" /\
   translateCertificateStatus "MANAGED_CERTIFICATE_STATUS_UNSPECIFIED" = Some "" /\
   translateCertificateStatus "PROVISIONING" = Some "Provisioning" /\
   translateCertificateStatus "PROVISIONING_FAILED" = Some "ProvisioningFailed" /\
   translateCertificateStatus "PROVISIONING_FAILED_PERMANENTLY"
     = Some "ProvisioningFailedPermanently" /\
   translateCertificateStatus "RENEWAL_FAILED" = Some "RenewalFailed") /\
  (translateDomainStatus "PROVISIONING" = Ok "Provisioning" /\
   translateDomainStatus "FAILED_NOT_VISIBLE" = Ok "FailedNotVisible" /\
   translateDomainStatus "FAILED_CAA_CHECKING" = Ok "FailedCaaChecking" /\
   translateDomainStatus "FAILED_CAA_FORBIDDEN" = Ok "FailedCaaForbidden" /\
   translateDomainStatus "FAILED_RATE_LIMITED" = Ok "FailedRateLimited" /\
   translateDomainStatus "ACTIVE" = Ok "Active") /\
  (forall status,
     status ∉ ["ACTIVE"; "MANAGED_CERTIFICATE_STATUS_UNSPECIFIED"; "";
               "PROVISIONING"; "PROVISIONING_FAILED";
               "PROVISIONING_FAILED_PERMANENTLY"; "RENEWAL_FAILED"] ->
     translateCertificateStatus status = None) /\
  (forall status,
     status ∉ ["PROVISIONING"; "FAILED_NOT_VISIBLE"; "FAILED_CAA_CHECKING";
               "FAILED_CAA_FORBIDDEN"; "FAILED_RATE_LIMITED"; "ACTIVE"] ->
     exists err, translateDomainStatus status = Err err).
Proof.
  split; [repeat split; reflexivity|].
  split; [repeat split; reflexivity|].
  split.
  - intros status Hnot. by apply translateCertificateStatus_unknown.
  - intros status Hnot. eexists. by apply translateDomainStatus_unknown.
Qed.

Lemma status_translation_exhaustive_witness :
  translateCertificateStatus "bad_status" = None /\
  exists err, translateDomainStatus "bad_status" = Err err.
Proof.
  destruct status_translation_exhaustive as (_ & _ & Hcert & Hdomain).
  split.
  - apply Hcert. compute_done.
  - apply Hdomain. compute_done.
Defined.

(** C3, as the claim words it, fails at the code [UNSPECIFIED]: the
    switch has no case for it and takes the default branch. *)
Lemma status_translation_UNSPECIFIED :
  translateCertificateStatus "UNSPECIFIED" = None /\
  translateCertificateStatus "UNSPECIFIED" <> Some "".
Proof. split; [reflexivity|discriminate]. Qed.

(** ** Running computations *)

Section Properties.

Context {P K : Type} `{SslClient P} `{Clientset K}.

Abbreviation World := (@World P K).

Lemma bind_value {A B : Type} (m : M A) (k : A -> M B) (w : World) :
  value (bind m k w) = value (k (value (m w)) (after (m w))).
Proof.
  unfold bind, value, after. destruct (m w) as [[a w1] evs1]. simpl.
  destruct (k a w1) as [[b w2] evs2]. reflexivity.
Qed.

Lemma bind_after {A B : Type} (m : M A) (k : A -> M B) (w : World) :
  after (bind m k w) = after (k (value (m w)) (after (m w))).
Proof.
  unfold bind, value, after. destruct (m w) as [[a w1] evs1]. simpl.
  destruct (k a w1) as [[b w2] evs2]. reflexivity.
Qed.

Lemma bind_calls {A B : Type} (m : M A) (k : A -> M B) (w : World) :
  calls (bind m k w) = calls (m w) ++ calls (k (value (m w)) (after (m w))).
Proof.
  unfold bind, value, after, calls. destruct (m w) as [[a w1] evs1]. simpl.
  destruct (k a w1) as [[b w2] evs2]. reflexivity.
Qed.

Lemma countEvents_app p (evs1 evs2 : list Event) :
  countEvents p (evs1 ++ evs2) = (countEvents p evs1 + countEvents p evs2)%nat.
Proof. unfold countEvents. by rewrite filter_app, length_app. Qed.

Lemma countEvents_zero p (evs : list Event) :
  countEvents p evs = 0%nat <-> forall ev, ev ∈ evs -> p ev = false.
Proof.
  unfold countEvents. induction evs as [|ev evs IH]; simpl.
  - split; [intros _ ev' Hin; by apply elem_of_nil in Hin|done].
  - rewrite filter_cons. destruct (decide (p ev = true)) as [Hp|Hp]; simpl.
    + split; [done|]. intros Hall.
      specialize (Hall ev (list_elem_of_here _ _)). congruence.
    + rewrite IH. split.
      * intros Hall ev' [->|Hin]%elem_of_cons; [by destruct (p ev)|auto].
      * intros Hall ev' Hin. apply Hall. by apply list_elem_of_further.
Qed.

(** ** The lister's cache *)

Lemma cache_find_Some ns name objs mcert :
  cache_find ns name objs = Some mcert ->
  Namespace mcert = ns /\ Name mcert = name.
Proof.
  induction objs as [|obj objs IH]; simpl; [done|].
  unfold sameObject at 1.
  destruct (String.eqb_spec (Namespace obj) ns) as [Hns|_]; simpl; [|exact IH].
  destruct (String.eqb_spec (Name obj) name) as [Hname|_]; [|exact IH].
  intros [= <-]. done.
Qed.

Lemma cache_find_assign ns name objs mcert mcert' :
  cache_find ns name objs = Some mcert ->
  Namespace mcert' = ns -> Name mcert' = name ->
  cache_find ns name (cache_assign mcert' objs) = Some mcert'.
Proof.
  intros Hfind <- <-.
  induction objs as [|obj objs IH]; simpl in *; [done|].
  destruct (sameObject (Namespace mcert') (Name mcert') obj) eqn:Hsame; simpl.
  - unfold sameObject. by rewrite !String.eqb_refl.
  - rewrite Hsame. auto.
Qed.

Lemma cache_assign_same ns name objs mcert :
  cache_find ns name objs = Some mcert -> cache_assign mcert objs = objs.
Proof.
  intros Hfind. destruct (cache_find_Some _ _ _ _ Hfind) as [<- <-].
  induction objs as [|obj objs IH]; simpl in *; [done|].
  destruct (sameObject (Namespace mcert) (Name mcert) obj) eqn:Hsame;
    [congruence|].
  f_equal. auto.
Qed.

(** ** [updateStatus] *)

Ltac run_calls :=
  unfold handleMcert, updateStatus, createSslCertificateIfNeeded,
    createSslCertificateNameIfNeeded, randomName, bind, ret, state_Get,
    state_Put, c_sslClient_Get, c_sslClient_Create, utils_RandomName,
    lister_Get, client_Update, assign, runtime_HandleError;
  simpl.

Ltac by_cases := repeat (case_match; simplify_eq /=); try done.

(** [updateStatus] reads the Identity Store and the provider and writes
    to the cluster only: everything else is as before, and the object
    keeps its identity and its spec. *)
Lemma updateStatus_frame (mcert : ManagedCertificate) (w : World) :
  let r := updateStatus mcert w in
  state (after r) = state w /\
  sslClient (after r) = sslClient w /\
  lister (after r) = lister w /\
  entropy (after r) = entropy w /\
  Mcert_queue (after r) = Mcert_queue w /\
  Ingress_queue (after r) = Ingress_queue w /\
  Namespace (value r).1 = Namespace mcert /\
  Name (value r).1 = Name mcert /\
  Spec (value r).1 = Spec mcert /\
  countEvents isStatePut (calls r) = 0%nat /\
  countEvents isSslCreate (calls r) = 0%nat /\
  countEvents isRandomName (calls r) = 0%nat.
Proof. run_calls. by_cases. Qed.

(** C5: when the provider resource carries an overall status the switch
    has no case for, [updateStatus] returns an error, makes no [Update]
    call and leaves the ManagedCertificate, and everything else, as it
    was. *)
Theorem updateStatus_unexpected_status (mcert : ManagedCertificate) (w : World)
    (sslCertificateName : string) (sslCert : SslCertificate) :
  state w !! Name mcert = Some sslCertificateName ->
  sslClient_Get (sslClient w) sslCertificateName = Ok sslCert ->
  Managed_Status (Managed sslCert) ∉ certificateStatusCodes ->
  let r := updateStatus mcert w in
  value r = (mcert,
             Some (ErrUnexpectedStatus (Managed_Status (Managed sslCert)) sslCert)) /\
  after r = w /\
  countEvents isMcertUpdate (calls r) = 0%nat.
Proof.
  intros Hstate Hget Hcode%translateCertificateStatus_unknown.
  run_calls. rewrite Hstate. simpl. rewrite Hget, Hcode. done.
Qed.

(** Without per-domain statuses the loop of [updateStatus] is not
    entered, and what is assigned to [mcert.Status.DomainStatus] is the
    [nil] slice [domainStatus] was declared as. *)
Lemma updateStatus_without_domains (mcert : ManagedCertificate) (w : World)
    (sslCertificateName : string) (sslCert : SslCertificate) :
  state w !! Name mcert = Some sslCertificateName ->
  sslClient_Get (sslClient w) sslCertificateName = Ok sslCert ->
  Managed_Status (Managed sslCert) ∈ certificateStatusCodes ->
  Managed_DomainStatus (Managed sslCert) = [] ->
  Status_DomainStatus (mcert_Status (value (updateStatus mcert w)).1) = nil_slice.
Proof.
  intros Hstate Hget [v Hcode]%translateCertificateStatus_known Hnone.
  run_calls. rewrite Hstate. simpl. rewrite Hget, Hcode, Hnone. simpl.
  by_cases.
Qed.

(** ** [randomName] *)

(** C8: [randomName] generates one candidate and probes the provider for
    it once.  If the probe fails the candidate is returned; if it
    succeeds the name is taken, one replacement is generated and returned
    as it is, with no probe for it.  The provider and the Identity Store
    are not written, and an error is returned only where a call of
    [utils.RandomName] returned that error. *)
Theorem randomName_bounded_retry (w : World) :
  let r := randomName w in
  (forall err,
     nextRandom (entropy w) = Err err ->
     value r = Err err /\ calls r = [RandomName (Err err)]) /\
  (forall name err,
     nextRandom (entropy w) = Ok name ->
     sslClient_Get (sslClient w) name = Err err ->
     value r = Ok name /\ calls r = [RandomName (Ok name); SslGet name]) /\
  (forall name sslCert,
     nextRandom (entropy w) = Ok name ->
     sslClient_Get (sslClient w) name = Ok sslCert ->
     value r = nextRandom (tail (entropy w)) /\
     calls r = [RandomName (Ok name); SslGet name;
                RandomName (nextRandom (tail (entropy w)))]) /\
  (forall err, value r = Err err -> RandomName (Err err) ∈ calls r) /\
  (countEvents isSslGet (calls r) <= 1)%nat /\
  (countEvents isRandomName (calls r) <= 2)%nat /\
  sslClient (after r) = sslClient w /\
  state (after r) = state w.
Proof.
  run_calls. repeat apply conj.
  - intros err Hrand. rewrite Hrand. done.
  - intros name err Hrand Hget. rewrite Hrand. simpl. rewrite Hget. done.
  - intros name sslCert Hrand Hget. rewrite Hrand. simpl. rewrite Hget. simpl.
    by_cases.
  - intros err. by_cases; intros [= ->]; set_solver.
  - by_cases; unfold countEvents; simpl; lia.
  - by_cases; unfold countEvents; simpl; lia.
  - by_cases.
  - by_cases.
Qed.

Lemma randomName_frame (w : World) :
  let r := randomName w in
  state (after r) = state w /\
  sslClient (after r) = sslClient w /\
  lister (after r) = lister w /\
  client (after r) = client w /\
  countEvents isStatePut (calls r) = 0%nat /\
  countEvents isSslCreate (calls r) = 0%nat /\
  (forall name, value r = Ok name -> Ok name ∈ entropy w) /\
  (forall err, value r = Err err -> countEvents isFailedRandomName (calls r) <> 0%nat).
Proof.
  run_calls. unfold nextRandom. repeat apply conj; try by by_cases.
  intros name. by_cases; intros [= ->]; set_solver.
Qed.

(** ** [createSslCertificateNameIfNeeded] *)

(** A name that is mapped to a non-empty provider name is given that
    name: one read of the Identity Store and nothing else. *)
Lemma createSslCertificateNameIfNeeded_reuse (name : string) (w : World)
    (sslCertificateName : string) :
  state w !! name = Some sslCertificateName ->
  sslCertificateName <> "" ->
  createSslCertificateNameIfNeeded name w =
  (Ok sslCertificateName, w, [StateGet name]).
Proof.
  intros Hstate Hne. run_calls. rewrite Hstate. simpl.
  destruct (String.eqb_spec sslCertificateName ""); done.
Qed.

(** A name without a mapping, or mapped to the empty name, is given what
    [randomName] returns, and that is put into the Identity Store after
    [randomName] has returned and before the function does. *)
Lemma createSslCertificateNameIfNeeded_fresh (name : string) (w : World) :
  state w !! name = None \/ state w !! name = Some "" ->
  let r := createSslCertificateNameIfNeeded name w in
  let rn := randomName w in
  match value rn with
  | Ok sslCertificateName =>
      value r = Ok sslCertificateName /\
      calls r = StateGet name :: calls rn ++ [StatePut name sslCertificateName] /\
      after r = with_state (<[name := sslCertificateName]> (state w)) (after rn)
  | Err err =>
      value r = Err err /\
      calls r = StateGet name :: calls rn /\
      after r = after rn
  end.
Proof.
  intros Hstate. cbv zeta.
  unfold createSslCertificateNameIfNeeded.
  rewrite bind_value, bind_calls, bind_after.
  assert (Hfresh : let g := value (state_Get name w) in
                   g.2 && negb (String.eqb g.1 "") = false).
  { unfold state_Get. simpl. by destruct Hstate as [-> | ->]. }
  assert (Hsame : after (state_Get name w) = w) by reflexivity.
  assert (Hcalls : calls (state_Get name w) = [StateGet name]) by reflexivity.
  rewrite Hsame, Hcalls. clear Hsame Hcalls.
  destruct (value (state_Get name w)) as [g exists_]. simpl in Hfresh.
  rewrite Hfresh. rewrite bind_value, bind_calls, bind_after.
  destruct (value (randomName w)) as [sslCertificateName|err].
  - rewrite bind_value, bind_calls, bind_after. simpl.
    repeat split.
    change (with_state (<[name:=sslCertificateName]> (state (after (randomName w))))
              (after (randomName w)) =
            with_state (<[name:=sslCertificateName]> (state w))
              (after (randomName w))).
    by rewrite (proj1 (randomName_frame w)).
  - simpl. by rewrite app_nil_r.
Qed.

(** ** [createSslCertificateIfNeeded] *)

Lemma createSslCertificateIfNeeded_found (sslCertificateName : string)
    (mcert : ManagedCertificate) (w : World) (sslCert : SslCertificate) :
  sslClient_Get (sslClient w) sslCertificateName = Ok sslCert ->
  createSslCertificateIfNeeded sslCertificateName mcert w =
  (None, w, [SslGet sslCertificateName]).
Proof. intros Hget. run_calls. by rewrite Hget. Qed.

Lemma createSslCertificateIfNeeded_missing (sslCertificateName : string)
    (mcert : ManagedCertificate) (w : World) (err : error) :
  sslClient_Get (sslClient w) sslCertificateName = Err err ->
  createSslCertificateIfNeeded sslCertificateName mcert w =
  let created :=
    sslClient_Create (sslClient w) sslCertificateName (Domains (Spec mcert)) in
  (created.2, with_sslClient created.1 w,
   [SslGet sslCertificateName;
    SslCreate sslCertificateName (Domains (Spec mcert)) created.2]).
Proof. intros Hget. run_calls. rewrite Hget. by_cases. Qed.

Lemma createSslCertificateIfNeeded_frame (sslCertificateName : string)
    (mcert : ManagedCertificate) (w : World) :
  let r := createSslCertificateIfNeeded sslCertificateName mcert w in
  state (after r) = state w /\
  lister (after r) = lister w /\
  client (after r) = client w /\
  countEvents isStatePut (calls r) = 0%nat /\
  countEvents isRandomName (calls r) = 0%nat /\
  (forall ev name, ev ∈ calls r -> sslName ev = Some name ->
                   name = sslCertificateName) /\
  (forall err, value r = Some err ->
               countEvents isFailedCreate (calls r) <> 0%nat).
Proof.
  destruct (sslClient_Get (sslClient w) sslCertificateName) as [sslCert|err] eqn:Hget.
  - rewrite (createSslCertificateIfNeeded_found _ _ _ _ Hget). simpl.
    repeat apply conj; try done.
    intros ev name Hin%list_elem_of_singleton. subst ev. by intros [= <-].
  - rewrite (createSslCertificateIfNeeded_missing _ _ _ _ Hget). simpl.
    repeat apply conj; try done.
    + intros ev name Hin.
      apply elem_of_cons in Hin as [->|Hin%list_elem_of_singleton];
        subst; by intros [= <-].
    + unfold value. simpl. by intros err' ->.
Qed.

(** ** [handleMcert], step by step *)

(** What [handleMcert] returns, calls and leaves behind, in terms of its
    three steps, for a key that decodes and an object the lister finds. *)
Lemma handleMcert_steps (key ns name : string) (mcert : ManagedCertificate)
    (w : World) :
  SplitMetaNamespaceKey key = Ok (ns, name) ->
  cache_find ns name (lister w) = Some mcert ->
  let r := handleMcert key w in
  let rn := createSslCertificateNameIfNeeded name w in
  match value rn with
  | Err err =>
      value r = Some err /\ after r = after rn /\
      calls r = ListerGet ns name :: calls rn
  | Ok sslCertificateName =>
      let rc := createSslCertificateIfNeeded sslCertificateName mcert (after rn) in
      match value rc with
      | Some err =>
          value r = Some err /\ after r = after rc /\
          calls r = ListerGet ns name :: calls rn ++ calls rc
      | None =>
          let ru := updateStatus mcert (after rc) in
          value r = (value ru).2 /\
          after r = with_lister (cache_assign (value ru).1 (lister (after ru)))
                      (after ru) /\
          calls r = ListerGet ns name :: calls rn ++ calls rc ++ calls ru
      end
  end.
Proof.
  intros Hsplit Hfind. cbv zeta. unfold handleMcert. rewrite Hsplit.
  rewrite bind_value, bind_after, bind_calls.
  assert (Hlister : lister_Get ns name w = (Ok mcert, w, [ListerGet ns name])).
  { unfold lister_Get. by rewrite Hfind. }
  rewrite Hlister. clear Hlister.
  change (value (Ok mcert, w, [ListerGet ns name])) with (@Ok ManagedCertificate mcert).
  change (after (Ok mcert, w, [ListerGet ns name])) with w.
  change (calls (Ok mcert, w, [ListerGet ns name])) with [ListerGet ns name].
  cbv beta iota.
  rewrite bind_value, bind_after, bind_calls.
  destruct (value (createSslCertificateNameIfNeeded name w))
    as [sslCertificateName|err].
  - rewrite bind_value, bind_after, bind_calls.
    destruct (value (createSslCertificateIfNeeded sslCertificateName mcert
                       (after (createSslCertificateNameIfNeeded name w))))
      as [err|].
    + simpl. by rewrite app_nil_r.
    + rewrite bind_value, bind_after, bind_calls.
      set (ru := updateStatus mcert _).
      destruct (value ru) as [mcert' err] eqn:Hru.
      rewrite bind_value, bind_after, bind_calls. simpl.
      by rewrite !app_nil_r.
  - simpl. by rewrite app_nil_r.
Qed.

Lemma countEvents_cons p (ev : Event) (evs : list Event) :
  countEvents p (ev :: evs) =
  ((if p ev then 1 else 0) + countEvents p evs)%nat.
Proof.
  unfold countEvents. rewrite filter_cons.
  destruct (p ev); by case_decide.
Qed.

Lemma countEvents_nil p : countEvents p [] = 0%nat.
Proof. reflexivity. Qed.

Ltac count_events :=
  repeat first
    [ rewrite countEvents_app
    | rewrite countEvents_cons
    | rewrite countEvents_nil ];
  simpl.

(** C2, as the code has it.  A reconciliation whose key decodes, whose
    ManagedCertificate the lister finds and whose name has no entry, or
    the empty one, in the Identity Store: if [randomName] returns a name,
    there is exactly one [Put], of that name, and no [Create] is called
    before it; if [randomName] returns an error, the reconciliation
    returns that error and there is neither a [Put] nor a [Create]. *)
Theorem handleMcert_Put_before_Create (key ns name : string)
    (mcert : ManagedCertificate) (w : World) :
  SplitMetaNamespaceKey key = Ok (ns, name) ->
  cache_find ns name (lister w) = Some mcert ->
  state w !! name = None \/ state w !! name = Some "" ->
  let r := handleMcert key w in
  match value (randomName w) with
  | Ok sslCertificateName =>
      countEvents isStatePut (calls r) = 1%nat /\
      exists before later,
        calls r = before ++ StatePut name sslCertificateName :: later /\
        countEvents isStatePut before = 0%nat /\
        countEvents isSslCreate before = 0%nat /\
        countEvents isStatePut later = 0%nat
  | Err err =>
      value r = Some err /\
      countEvents isStatePut (calls r) = 0%nat /\
      countEvents isSslCreate (calls r) = 0%nat
  end.
Proof.
  intros Hsplit Hfind Hstate.
  pose proof (handleMcert_steps key ns name mcert w Hsplit Hfind) as Hsteps.
  pose proof (createSslCertificateNameIfNeeded_fresh name w Hstate) as Hfresh.
  destruct (randomName_frame w) as (_ & _ & _ & _ & HrnPut & HrnCreate & _).
  cbv zeta in *.
  destruct (value (randomName w)) as [sslCertificateName|err].
  - destruct Hfresh as (Hvalue & Hcalls & Hafter).
    rewrite Hvalue in Hsteps.
    set (rc := createSslCertificateIfNeeded sslCertificateName mcert _) in *.
    destruct (createSslCertificateIfNeeded_frame sslCertificateName mcert
                (after (createSslCertificateNameIfNeeded name w)))
      as (_ & _ & _ & HrcPut & _).
    fold rc in HrcPut.
    assert (exists later,
      calls (handleMcert key w) =
        (ListerGet ns name :: StateGet name :: calls (randomName w))
          ++ StatePut name sslCertificateName :: later /\
      countEvents isStatePut later = 0%nat) as (later & Hr & Hlater).
    { destruct (value rc) as [err|].
      - destruct Hsteps as (_ & _ & ->). exists (calls rc). split; [|done].
        rewrite Hcalls. simpl. by rewrite <- !app_assoc.
      - destruct Hsteps as (_ & _ & ->).
        destruct (updateStatus_frame mcert (after rc))
          as (_ & _ & _ & _ & _ & _ & _ & _ & _ & HruPut & _).
        exists (calls rc ++ calls (updateStatus mcert (after rc))). split.
        + rewrite Hcalls. simpl. by rewrite <- !app_assoc.
        + count_events. by rewrite HrcPut, HruPut. }
    split.
    + rewrite Hr. count_events. by rewrite HrnPut, Hlater.
    + exists (ListerGet ns name :: StateGet name :: calls (randomName w)), later.
      repeat split; [done| | |done]; by count_events.
  - destruct Hfresh as (Hvalue & Hcalls & Hafter).
    rewrite Hvalue in Hsteps. destruct Hsteps as (-> & _ & ->).
    rewrite Hcalls. split; [done|]. by count_events.
Qed.

(** ** Idempotence *)

Lemma value_run {A : Type} (a : A) (w : World) (evs : list Event) :
  value (a, w, evs) = a.
Proof. reflexivity. Qed.

Lemma after_run {A : Type} (a : A) (w : World) (evs : list Event) :
  after (a, w, evs) = w.
Proof. reflexivity. Qed.

Lemma calls_run {A : Type} (a : A) (w : World) (evs : list Event) :
  calls (a, w, evs) = evs.
Proof. reflexivity. Qed.

(** The outcome of the name step: a name comes with its mapping in the
    Identity Store, an error comes from a failed generation. *)
Lemma createSslCertificateNameIfNeeded_post (name : string) (w : World) :
  let r := createSslCertificateNameIfNeeded name w in
  sslClient (after r) = sslClient w /\
  lister (after r) = lister w /\
  countEvents isSslCreate (calls r) = 0%nat /\
  (forall sslCertificateName,
     value r = Ok sslCertificateName ->
     Ok "" ∉ entropy w ->
     state (after r) !! name = Some sslCertificateName /\
     sslCertificateName <> "") /\
  (forall err,
     value r = Err err ->
     countEvents isFailedRandomName (calls r) <> 0%nat).
Proof.
  cbv zeta.
  destruct (state w !! name) as [mapped|] eqn:Hstate;
    [destruct (decide (mapped = "")) as [->|Hne]|].
  2: { rewrite (createSslCertificateNameIfNeeded_reuse name w mapped Hstate Hne).
       simpl. repeat apply conj; try done.
       intros sslCertificateName [= <-] _. done. }
  all: assert (Hfresh : state w !! name = None \/ state w !! name = Some "")
         by (rewrite Hstate; auto).
  all: pose proof (createSslCertificateNameIfNeeded_fresh name w Hfresh) as Hpost.
  all: destruct (randomName_frame w)
         as (Hst & Hssl & Hlister & _ & _ & Hcreate & Hfrom & Hfailed).
  all: cbv zeta in Hpost.
  all: destruct (value (randomName w)) as [generated|err];
         destruct Hpost as (-> & -> & ->).
  all: repeat apply conj; try done.
  all: try (count_events; by rewrite Hcreate).
  all: try (intros sslCertificateName [= <-] Hentropy; split;
            [apply lookup_insert_eq|];
            intros ->; apply Hentropy, Hfrom; reflexivity).
  all: intros err' [= <-]; count_events; by apply Hfailed.
Qed.

(** A reconciliation that finds the name mapped and the mapped
    certificate at the provider creates nothing, generates nothing and
    leaves the Identity Store and the provider as they are. *)
Lemma handleMcert_settled (key ns name : string) (mcert : ManagedCertificate)
    (w : World) (sslCertificateName : string) (sslCert : SslCertificate) :
  SplitMetaNamespaceKey key = Ok (ns, name) ->
  cache_find ns name (lister w) = Some mcert ->
  state w !! name = Some sslCertificateName ->
  sslCertificateName <> "" ->
  sslClient_Get (sslClient w) sslCertificateName = Ok sslCert ->
  let r := handleMcert key w in
  countEvents isSslCreate (calls r) = 0%nat /\
  countEvents isStatePut (calls r) = 0%nat /\
  countEvents isRandomName (calls r) = 0%nat /\
  state (after r) = state w /\
  sslClient (after r) = sslClient w.
Proof.
  intros Hsplit Hfind Hstate Hne Hget.
  pose proof (handleMcert_steps key ns name mcert w Hsplit Hfind) as Hsteps.
  cbv zeta in *.
  rewrite (createSslCertificateNameIfNeeded_reuse name w _ Hstate Hne) in Hsteps.
  rewrite value_run, after_run, calls_run in Hsteps.
  rewrite (createSslCertificateIfNeeded_found _ mcert w _ Hget) in Hsteps.
  rewrite value_run, after_run, calls_run in Hsteps.
  destruct Hsteps as (_ & -> & ->).
  destruct (updateStatus_frame mcert w)
    as (Hst & Hssl & _ & _ & _ & _ & _ & _ & _ & HPut & HCreate & HRandom).
  repeat apply conj; try done; count_events; done.
Qed.

Lemma createSslCertificateIfNeeded_ok (sslCertificateName : string)
    (mcert : ManagedCertificate) (w : World) :
  CreateThenGet P ->
  let r := createSslCertificateIfNeeded sslCertificateName mcert w in
  value r = None ->
  exists sslCert,
    sslClient_Get (sslClient (after r)) sslCertificateName = Ok sslCert.
Proof.
  intros Hlaw. cbv zeta.
  destruct (sslClient_Get (sslClient w) sslCertificateName) as [sslCert|err] eqn:Hget.
  - rewrite (createSslCertificateIfNeeded_found _ _ _ _ Hget).
    rewrite after_run. eauto.
  - rewrite (createSslCertificateIfNeeded_missing _ _ _ _ Hget). cbv zeta.
    rewrite value_run, after_run.
    destruct (sslClient_Create (sslClient w) sslCertificateName
                (Domains (Spec mcert))) as [p err'] eqn:Hcreate.
    simpl. intros ->. eapply Hlaw, Hcreate.
Qed.

(** After a reconciliation in which no [Create] and no name generation
    failed, the name is mapped, the mapped certificate is at the
    provider and the object is still in the lister's cache. *)
Lemma handleMcert_settles (key ns name : string) (mcert : ManagedCertificate)
    (w : World) :
  CreateThenGet P ->
  Ok "" ∉ entropy w ->
  SplitMetaNamespaceKey key = Ok (ns, name) ->
  cache_find ns name (lister w) = Some mcert ->
  let r := handleMcert key w in
  countEvents isFailedCreate (calls r) = 0%nat ->
  countEvents isFailedRandomName (calls r) = 0%nat ->
  exists sslCertificateName sslCert mcert',
    state (after r) !! name = Some sslCertificateName /\
    sslCertificateName <> "" /\
    sslClient_Get (sslClient (after r)) sslCertificateName = Ok sslCert /\
    cache_find ns name (lister (after r)) = Some mcert'.
Proof.
  intros Hlaw Hentropy Hsplit Hfind.
  pose proof (handleMcert_steps key ns name mcert w Hsplit Hfind) as Hsteps.
  destruct (createSslCertificateNameIfNeeded_post name w)
    as (HnSsl & HnLister & _ & HnOk & HnErr).
  cbv zeta in *.
  set (rn := createSslCertificateNameIfNeeded name w) in *.
  destruct (value rn) as [sslCertificateName|err] eqn:Hrn.
  2: { destruct Hsteps as (_ & _ & ->). intros _. count_events.
       intros Hzero. by destruct (HnErr err eq_refl). }
  destruct (HnOk _ eq_refl Hentropy) as [Hmapped Hne].
  destruct (createSslCertificateIfNeeded_frame sslCertificateName mcert (after rn))
    as (HcState & HcLister & _ & _ & _ & _ & HcErr).
  pose proof (createSslCertificateIfNeeded_ok sslCertificateName mcert
                (after rn) Hlaw) as HcOk.
  cbv zeta in *.
  set (rc := createSslCertificateIfNeeded sslCertificateName mcert (after rn)) in *.
  destruct (value rc) as [err|] eqn:Hrc.
  { destruct Hsteps as (_ & _ & ->). count_events.
    intros Hzero _. exfalso. apply (HcErr err eq_refl). lia. }
  destruct (HcOk eq_refl) as [sslCert Hget].
  destruct (updateStatus_frame mcert (after rc))
    as (HuState & HuSsl & HuLister & _ & _ & _ & HuNs & HuName & _).
  set (ru := updateStatus mcert (after rc)) in *.
  destruct Hsteps as (_ & -> & _). intros _ _.
  destruct (cache_find_Some _ _ _ _ Hfind) as [Hns Hname].
  exists sslCertificateName, sslCert, (value ru).1.
  repeat split.
  - simpl. by rewrite HuState, HcState.
  - done.
  - simpl. by rewrite HuSsl.
  - simpl. apply cache_find_assign with (mcert := mcert).
    + by rewrite HuLister, HcLister, HnLister.
    + by rewrite HuNs.
    + by rewrite HuName.
Qed.


(** ** The Ingress worker *)

Lemma handleIngress_names_spec (ns : string) (names : list string) (w : World) :
  let r := handleIngress_names ns names w in
  lister (after r) = lister w /\
  client (after r) = client w /\
  (forall obj, obj ∈ items (Mcert_queue w) ->
               obj ∈ items (Mcert_queue (after r))) /\
  (forall name, name ∈ names -> ListerGet ns name ∈ calls r) /\
  (forall name, name ∈ names -> cache_find ns name (lister w) = None ->
     HandleError (CollaboratorError "managedcertificate not found") ∈ calls r) /\
  (forall name mcert,
     name ∈ names -> cache_find ns name (lister w) = Some mcert ->
     McertEnqueue mcert ∈ calls r /\
     StringItem (MetaNamespaceKey ns name) ∈ items (Mcert_queue (after r))).
Proof.
  revert w. induction names as [|name names IH]; intros w; cbv zeta.
  { simpl. repeat apply conj; try done.
    - intros name' Hin. by apply elem_of_nil in Hin.
    - intros name' Hin. by apply elem_of_nil in Hin.
    - intros name' mcert Hin. by apply elem_of_nil in Hin. }
  cbn [handleIngress_names].
  rewrite !bind_after, !bind_calls.
  set (found := lister_Get ns name w).
  assert (Hfound : after found = w) by reflexivity.
  assert (HfoundCalls : calls found = [ListerGet ns name]) by reflexivity.
  assert (HfoundValue : value found =
            match cache_find ns name (lister w) with
            | Some mcert => Ok mcert
            | None => Err (CollaboratorError "managedcertificate not found")
            end) by reflexivity.
  rewrite Hfound, HfoundCalls. clear Hfound HfoundCalls.
  set (step := match value found with
               | Ok mcert => Mcert_enqueue mcert
               | Err err => runtime_HandleError err
               end w).
  assert (Hstep : lister (after step) = lister w /\
                  client (after step) = client w /\
                  (forall obj, obj ∈ items (Mcert_queue w) ->
                               obj ∈ items (Mcert_queue (after step))) /\
                  match cache_find ns name (lister w) with
                  | Some mcert =>
                      calls step = [McertEnqueue mcert] /\
                      StringItem (MetaNamespaceKey ns name)
                        ∈ items (Mcert_queue (after step))
                  | None =>
                      calls step =
                        [HandleError (CollaboratorError "managedcertificate not found")]
                  end).
  { subst step. rewrite HfoundValue.
    destruct (cache_find ns name (lister w)) as [mcert|] eqn:Hfind; [|done].
    destruct (cache_find_Some _ _ _ _ Hfind) as [Hns Hname].
    unfold Mcert_enqueue. simpl. rewrite Hns, Hname.
    repeat apply conj; try done.
    - intros obj Hin. case_bool_decide; [done|]. apply elem_of_app. by left.
    - case_bool_decide; [done|]. apply elem_of_app. right.
      apply list_elem_of_here. }
  destruct Hstep as (HsLister & HsClient & HsItems & HsCalls).
  destruct (IH (after step)) as (IHlister & IHclient & IHitems & IHget & IHerr & IHenq).
  repeat apply conj.
  - by rewrite IHlister.
  - by rewrite IHclient.
  - intros obj Hin. by apply IHitems, HsItems.
  - intros name' [->|Hin]%elem_of_cons.
    + apply list_elem_of_here.
    + apply list_elem_of_further, elem_of_app. right. by apply IHget.
  - intros name' [->|Hin]%elem_of_cons Hnone.
    + rewrite Hnone in HsCalls. rewrite HsCalls.
      apply list_elem_of_further, list_elem_of_here.
    + apply list_elem_of_further, elem_of_app. right.
      apply (IHerr name' Hin). by rewrite HsLister.
  - intros name' mcert [->|Hin]%elem_of_cons Hfind.
    + rewrite Hfind in HsCalls. destruct HsCalls as [-> Hitem]. split.
      * apply list_elem_of_further, list_elem_of_here.
      * by apply IHitems.
    + destruct (IHenq name' mcert Hin) as [Hcall Hitem];
        [by rewrite HsLister|].
      split; [|done].
      apply list_elem_of_further, elem_of_app. right. done.
Qed.

Lemma handleIngress_annotated (key ns name : string) (ing : Ingress)
    (annotationValue : string) (w : World) :
  SplitMetaNamespaceKey key = Ok (ns, name) ->
  Ingress_client_Get (client w) ns name = Ok ing ->
  Annotations ing !! annotation = Some annotationValue ->
  let r := handleIngress key w in
  let loop := handleIngress_names ns (range (parseAnnotation annotationValue)) w in
  value r = None /\ after r = after loop /\
  calls r = IngressGet ns name :: calls loop.
Proof.
  intros Hsplit Hget Hann. cbv zeta. unfold handleIngress. rewrite Hsplit.
  cbv beta iota.
  rewrite bind_value, bind_after, bind_calls.
  assert (Hg : Ingress_Get ns name w = (Ok ing, w, [IngressGet ns name]))
    by (unfold Ingress_Get; by rewrite Hget).
  rewrite Hg, value_run, after_run, calls_run. cbv beta iota. rewrite Hann.
  rewrite bind_value, bind_after, bind_calls. simpl.
  by rewrite app_nil_r.
Qed.

(** C6: where the annotation names several ManagedCertificates, the
    reconciliation of the Ingress returns success whatever the lister
    answers, and every name the lister resolves is handed to the Mcert
    controller and waits in the Mcert queue afterwards, also where a
    name before or after it is not resolved; the error for a name that
    is not resolved is logged. *)
Theorem handleIngress_partial_failure (key ns name : string) (ing : Ingress)
    (annotationValue : string) (w : World) :
  SplitMetaNamespaceKey key = Ok (ns, name) ->
  Ingress_client_Get (client w) ns name = Ok ing ->
  Annotations ing !! annotation = Some annotationValue ->
  let r := handleIngress key w in
  value r = None /\
  (forall mcertName mcert,
     mcertName ∈ range (parseAnnotation annotationValue) ->
     cache_find ns mcertName (lister w) = Some mcert ->
     McertEnqueue mcert ∈ calls r /\
     StringItem (MetaNamespaceKey ns mcertName) ∈ items (Mcert_queue (after r))) /\
  (forall mcertName,
     mcertName ∈ range (parseAnnotation annotationValue) ->
     cache_find ns mcertName (lister w) = None ->
     HandleError (CollaboratorError "managedcertificate not found") ∈ calls r).
Proof.
  intros Hsplit Hget Hann.
  destruct (handleIngress_annotated key ns name ing annotationValue w
              Hsplit Hget Hann) as (Hvalue & Hafter & Hcalls).
  destruct (handleIngress_names_spec ns
              (range (parseAnnotation annotationValue)) w)
    as (_ & _ & _ & _ & Herr & Henq).
  cbv zeta in *. rewrite Hafter, Hcalls. repeat apply conj.
  - done.
  - intros mcertName mcert Hin Hfind.
    destruct (Henq mcertName mcert Hin Hfind) as [Hcall Hitem].
    split; [by apply list_elem_of_further|done].
  - intros mcertName Hin Hnone. apply list_elem_of_further. by eapply Herr.
Qed.

(** The lookups of the loop of [handleIngress]: one for each piece, in
    the order of the pieces. *)
Lemma handleIngress_names_lookups (ns : string) (names : list string) (w : World) :
  omap listerLookup (calls (handleIngress_names ns names w)) =
  (fun name => (ns, name)) <$> names.
Proof.
  revert w. induction names as [|name names IH]; intros w; [done|].
  cbn [handleIngress_names].
  rewrite !bind_calls, !omap_app, IH.
  assert (Hget : calls (lister_Get ns name w) = [ListerGet ns name])
    by reflexivity.
  rewrite Hget.
  assert (Hstep : omap listerLookup
            (calls (match value (lister_Get ns name w) with
                    | Ok mcert => Mcert_enqueue mcert
                    | Err err => runtime_HandleError err
                    end (after (lister_Get ns name w)))) = []).
  { by destruct (value (lister_Get ns name w)). }
  rewrite Hstep. reflexivity.
Qed.

Lemma occurrences_lookups (ns name : string) (names : list string) :
  length (filter (fun lookup => lookup = (ns, name))
            ((fun piece => (ns, piece)) <$> names)) =
  occurrences name names.
Proof.
  unfold occurrences. induction names as [|piece names IH]; [done|].
  rewrite fmap_cons, !filter_cons.
  destruct (decide (piece = name)) as [->|Hne].
  - rewrite decide_True by done. simpl. by rewrite IH.
  - rewrite decide_False by congruence. exact IH.
Qed.

(** C10: [parseAnnotation] keeps every piece between separators, so that
    joining the pieces gives the annotation value back; a value with a
    leading, a trailing or a doubled separator has the empty name among
    its pieces.  [handleIngress] asks the lister once for every piece, in
    the order of the pieces and in the namespace of the Ingress: so it
    looks up the ManagedCertificate of the empty name, as often as the
    empty name occurs among the pieces. *)
Theorem parseAnnotation_keeps_empty_names (key ns name : string) (ing : Ingress)
    (annotationValue : string) (w : World) :
  SplitMetaNamespaceKey key = Ok (ns, name) ->
  Ingress_client_Get (client w) ns name = Ok ing ->
  Annotations ing !! annotation = Some annotationValue ->
  emptySegment annotationValue ->
  String.concat splitBy (range (parseAnnotation annotationValue)) = annotationValue /\
  "" ∈ range (parseAnnotation annotationValue) /\
  ListerGet ns "" ∈ calls (handleIngress key w) /\
  omap listerLookup (calls (handleIngress key w)) =
    (fun piece => (ns, piece)) <$> range (parseAnnotation annotationValue) /\
  length (filter (fun lookup => lookup = (ns, ""))
            (omap listerLookup (calls (handleIngress key w)))) =
    occurrences "" (range (parseAnnotation annotationValue)) /\
  (0 < occurrences "" (range (parseAnnotation annotationValue)))%nat.
Proof.
  intros Hsplit Hget Hann Hempty.
  pose proof (emptySegment_not_empty _ Hempty) as Hne.
  assert (Hin : "" ∈ range (parseAnnotation annotationValue)).
  { rewrite (parseAnnotation_not_empty _ Hne). simpl.
    by apply emptySegment_Split. }
  destruct (handleIngress_annotated key ns name ing annotationValue w
              Hsplit Hget Hann) as (_ & _ & Hcalls).
  assert (Hlookups :
    omap listerLookup (calls (handleIngress key w)) =
    (fun piece => (ns, piece)) <$> range (parseAnnotation annotationValue)).
  { rewrite Hcalls.
    change (IngressGet ns name :: ?evs) with ([IngressGet ns name] ++ evs).
    rewrite omap_app. simpl. apply handleIngress_names_lookups. }
  repeat apply conj.
  - rewrite (parseAnnotation_not_empty _ Hne). simpl.
    apply Split_comma_concat.
  - done.
  - rewrite Hcalls. apply list_elem_of_further.
    by apply handleIngress_names_spec.
  - done.
  - rewrite Hlookups. apply occurrences_lookups.
  - unfold occurrences.
    destruct (filter (fun piece => piece = "")
                (range (parseAnnotation annotationValue))) as [|piece pieces] eqn:Hnone.
    + exfalso. eapply (filter_nil_not_elem_of _ _ "" Hnone); done.
    + simpl. lia.
Qed.

(** ** Items that are not keys *)

(** The Ingress worker forgets an item that is not a string and returns:
    the reconciler is not run and the item is not added again. *)
Lemma processNextIngress_not_string (w : World) (obj : Item) (rest : list Item) :
  items (Ingress_queue w) = obj :: rest ->
  (assertString obj).2 = false ->
  let r := processNextIngress w in
  value r = Some true /\
  calls r = [QueueGet ingressQueue; QueueForget ingressQueue obj;
             QueueDone ingressQueue obj;
             HandleError (ErrExpectedString "ingressQueue" obj)] /\
  countEvents isAddRateLimited (calls r) = 0%nat /\
  delayed (Ingress_queue (after r)) = delayed (Ingress_queue w) /\
  items (Ingress_queue (after r)) = rest.
Proof.
  intros Hitems Hok.
  unfold processNextIngress, bind, ret, queue_Get, queue_Forget, queue_Done,
    runtime_HandleError.
  simpl. rewrite Hitems.
  destruct obj; simpl in *; done.
Qed.

(** The Mcert worker forgets an item that is not a string and goes on:
    [handleMcert] is run with the zero value of [key], the empty string,
    which decodes to the empty name in the empty namespace; the lister
    has no such object, and for the error the item is added again with
    a delay. *)
Lemma processNext_not_string (w : World) (obj : Item) (rest : list Item) :
  items (Mcert_queue w) = obj :: rest ->
  (assertString obj).2 = false ->
  cache_find "" "" (lister w) = None ->
  let r := processNext w in
  value r = Some true /\
  calls r = [QueueGet mcertQueue; QueueForget mcertQueue obj;
             HandleError (ErrExpectedString "mcertQueue" obj);
             ListerGet "" "";
             QueueAddRateLimited mcertQueue obj;
             HandleError (CollaboratorError "managedcertificate not found");
             QueueForget mcertQueue obj; QueueDone mcertQueue obj] /\
  countEvents isAddRateLimited (calls r) = 1%nat /\
  delayed (Mcert_queue (after r)) = delayed (Mcert_queue w) ++ [obj] /\
  items (Mcert_queue (after r)) = rest.
Proof.
  intros Hitems Hok Hnone.
  unfold processNext, handleMcert, bind, ret, queue_Get, queue_Forget,
    queue_Done, queue_AddRateLimited, runtime_HandleError, lister_Get.
  simpl. rewrite Hitems.
  destruct obj; simpl in *; try done; by rewrite Hnone.
Qed.

(** ** The key of the Identity Store *)

Ltac each_call Hin :=
  repeat (apply elem_of_cons in Hin as [->|Hin]);
  try (by apply elem_of_nil in Hin).

Lemma createSslCertificateNameIfNeeded_keys (name : string) (w : World) :
  forall ev k,
    ev ∈ calls (createSslCertificateNameIfNeeded name w) ->
    stateKey ev = Some k -> k = name.
Proof.
  intros ev k. run_calls. by_cases; intros Hin; each_call Hin;
    simpl; congruence.
Qed.

Lemma createSslCertificateIfNeeded_keys (sslCertificateName : string)
    (mcert : ManagedCertificate) (w : World) :
  forall ev,
    ev ∈ calls (createSslCertificateIfNeeded sslCertificateName mcert w) ->
    stateKey ev = None.
Proof.
  intros ev. run_calls. by_cases; intros Hin; each_call Hin; done.
Qed.

(** [updateStatus] reads the Identity Store under the name of the object
    alone, and asks the provider for what it finds there. *)
Lemma updateStatus_keys (mcert : ManagedCertificate) (w : World) :
  forall ev,
    ev ∈ calls (updateStatus mcert w) ->
    (forall k, stateKey ev = Some k -> k = Name mcert) /\
    (forall sslCertificateName,
       sslName ev = Some sslCertificateName ->
       state w !! Name mcert = Some sslCertificateName).
Proof.
  intros ev. run_calls. by_cases; intros Hin; each_call Hin;
    split; simpl; congruence.
Qed.

Lemma cache_assign_keeps (mcert : ManagedCertificate) (ns name : string)
    (objs : list ManagedCertificate) :
  is_Some (cache_find ns name objs) ->
  is_Some (cache_find ns name (cache_assign mcert objs)).
Proof.
  induction objs as [|obj objs IH]; simpl; [done|].
  destruct (sameObject (Namespace mcert) (Name mcert) obj) eqn:Hmine; simpl.
  - destruct (sameObject ns name obj) eqn:Hobj;
      [|by destruct (sameObject ns name mcert); eauto].
    intros _.
    assert (sameObject ns name mcert = true) as ->; [|done].
    unfold sameObject in *.
    apply andb_true_iff in Hmine as [Hns%String.eqb_eq Hname%String.eqb_eq].
    apply andb_true_iff in Hobj as [Hns'%String.eqb_eq Hname'%String.eqb_eq].
    rewrite <- Hns, <- Hname, Hns', Hname', !String.eqb_refl. done.
  - destruct (sameObject ns name obj); [done|exact IH].
Qed.

(** No reconciliation removes an object from the lister's cache. *)
Lemma handleMcert_lister_keeps (key : string) (w : World) (ns name : string) :
  is_Some (cache_find ns name (lister w)) ->
  is_Some (cache_find ns name (lister (after (handleMcert key w)))).
Proof.
  intros Hsome.
  destruct (SplitMetaNamespaceKey key) as [[ns0 name0]|err] eqn:Hsplit.
  2: { unfold handleMcert. by rewrite Hsplit. }
  destruct (cache_find ns0 name0 (lister w)) as [mcert|] eqn:Hfind.
  2: { unfold handleMcert. rewrite Hsplit.
       unfold bind, lister_Get, ret. by rewrite Hfind. }
  pose proof (handleMcert_steps key ns0 name0 mcert w Hsplit Hfind) as Hsteps.
  destruct (createSslCertificateNameIfNeeded_post name0 w)
    as (_ & HnLister & _).
  cbv zeta in *.
  set (rn := createSslCertificateNameIfNeeded name0 w) in *.
  destruct (value rn) as [sslCertificateName|err].
  2: { destruct Hsteps as (_ & -> & _). by rewrite HnLister. }
  destruct (createSslCertificateIfNeeded_frame sslCertificateName mcert (after rn))
    as (_ & HcLister & _).
  cbv zeta in *.
  set (rc := createSslCertificateIfNeeded sslCertificateName mcert (after rn)) in *.
  destruct (value rc) as [err|].
  { destruct Hsteps as (_ & -> & _). by rewrite HcLister, HnLister. }
  destruct (updateStatus_frame mcert (after rc)) as (_ & _ & HuLister & _).
  destruct Hsteps as (_ & -> & _). simpl.
  apply cache_assign_keeps. by rewrite HuLister, HcLister, HnLister.
Qed.

Lemma handleMcert_keys (key ns name : string) (w : World) :
  SplitMetaNamespaceKey key = Ok (ns, name) ->
  forall ev k,
    ev ∈ calls (handleMcert key w) -> stateKey ev = Some k -> k = name.
Proof.
  intros Hsplit ev k.
  destruct (cache_find ns name (lister w)) as [mcert|] eqn:Hfind.
  2: { unfold handleMcert. rewrite Hsplit.
       unfold bind, lister_Get, ret. rewrite Hfind. simpl.
       intros Hin. each_call Hin. done. }
  pose proof (handleMcert_steps key ns name mcert w Hsplit Hfind) as Hsteps.
  destruct (cache_find_Some _ _ _ _ Hfind) as [_ Hname].
  cbv zeta in *.
  pose proof (createSslCertificateNameIfNeeded_keys name w) as Hn.
  set (rn := createSslCertificateNameIfNeeded name w) in *.
  destruct (value rn) as [sslCertificateName|err].
  2: { destruct Hsteps as (_ & _ & ->).
       intros [->|Hin]%elem_of_cons; [done|]. by apply Hn. }
  pose proof (createSslCertificateIfNeeded_keys sslCertificateName mcert (after rn))
    as Hc.
  set (rc := createSslCertificateIfNeeded sslCertificateName mcert (after rn)) in *.
  destruct (value rc) as [err|].
  { destruct Hsteps as (_ & _ & ->).
    intros [->|[Hin|Hin]%elem_of_app]%elem_of_cons; [done|by apply Hn|].
    by rewrite (Hc ev Hin). }
  destruct Hsteps as (_ & _ & ->).
  intros [->|[Hin|[Hin|Hin]%elem_of_app]%elem_of_app]%elem_of_cons;
    [done|by apply Hn|by rewrite (Hc ev Hin)|].
  rewrite <- Hname. by apply (updateStatus_keys mcert (after rc) ev Hin).
Qed.

Lemma handleMcert_settled_names (key ns name : string)
    (mcert : ManagedCertificate) (w : World) (sslCertificateName : string)
    (sslCert : SslCertificate) :
  SplitMetaNamespaceKey key = Ok (ns, name) ->
  cache_find ns name (lister w) = Some mcert ->
  state w !! name = Some sslCertificateName ->
  sslCertificateName <> "" ->
  sslClient_Get (sslClient w) sslCertificateName = Ok sslCert ->
  forall ev n,
    ev ∈ calls (handleMcert key w) -> sslName ev = Some n ->
    n = sslCertificateName.
Proof.
  intros Hsplit Hfind Hstate Hne Hget ev n.
  pose proof (handleMcert_steps key ns name mcert w Hsplit Hfind) as Hsteps.
  destruct (cache_find_Some _ _ _ _ Hfind) as [_ Hname].
  cbv zeta in *.
  rewrite (createSslCertificateNameIfNeeded_reuse name w _ Hstate Hne) in Hsteps.
  rewrite value_run, after_run, calls_run in Hsteps.
  rewrite (createSslCertificateIfNeeded_found _ mcert w _ Hget) in Hsteps.
  rewrite value_run, after_run, calls_run in Hsteps.
  destruct Hsteps as (_ & _ & ->).
  intros [->|[->|[->|Hin]%elem_of_cons]%elem_of_cons]%elem_of_cons;
    [done|done|by intros [= <-]|].
  intros Hssl.
  destruct (updateStatus_keys mcert w ev Hin) as [_ Hmapped].
  specialize (Hmapped n Hssl). rewrite Hname in Hmapped. congruence.
Qed.

(** C9: the Identity Store is read and written under the name alone,
    by [updateStatus] and by the whole reconciliation, whatever the
    namespace.  So of two ManagedCertificates of one name the one
    reconciled second finds the mapping of the first: no name is
    generated and none is put, no certificate is created, and every
    provider call of its reconciliation is made with the provider name
    the first one has. *)
Theorem Identity_Store_keyed_by_name (key1 key2 ns1 ns2 name : string) :
  SplitMetaNamespaceKey key1 = Ok (ns1, name) ->
  SplitMetaNamespaceKey key2 = Ok (ns2, name) ->
  (forall (mcert : ManagedCertificate) (w : World) ev k,
     ev ∈ calls (updateStatus mcert w) -> stateKey ev = Some k ->
     k = Name mcert) /\
  (forall (w1 w2 : World) ev k,
     ev ∈ calls (handleMcert key1 w1) ++ calls (handleMcert key2 w2) ->
     stateKey ev = Some k -> k = name) /\
  (forall (mcert1 mcert2 : ManagedCertificate) (w : World),
     CreateThenGet P ->
     Ok "" ∉ entropy w ->
     cache_find ns1 name (lister w) = Some mcert1 ->
     cache_find ns2 name (lister w) = Some mcert2 ->
     let r1 := handleMcert key1 w in
     let r2 := handleMcert key2 (after r1) in
     countEvents isFailedCreate (calls r1) = 0%nat ->
     countEvents isFailedRandomName (calls r1) = 0%nat ->
     state (after r2) = state (after r1) /\
     countEvents isStatePut (calls r2) = 0%nat /\
     countEvents isRandomName (calls r2) = 0%nat /\
     countEvents isSslCreate (calls r2) = 0%nat /\
     exists sslCertificateName,
       state (after r2) !! name = Some sslCertificateName /\
       forall ev n, ev ∈ calls r2 -> sslName ev = Some n ->
                    n = sslCertificateName).
Proof.
  intros Hsplit1 Hsplit2. repeat apply conj.
  - intros mcert w ev k Hin. by apply (updateStatus_keys mcert w ev Hin).
  - intros w1 w2 ev k [Hin|Hin]%elem_of_app.
    + by apply (handleMcert_keys key1 ns1 name w1 Hsplit1).
    + by apply (handleMcert_keys key2 ns2 name w2 Hsplit2).
  - intros mcert1 mcert2 w Hlaw Hentropy Hfind1 Hfind2. cbv zeta.
    intros Hcreate Hrandom.
    destruct (handleMcert_settles key1 ns1 name mcert1 w Hlaw Hentropy Hsplit1
                Hfind1 Hcreate Hrandom)
      as (sslCertificateName & sslCert & _ & Hmapped & Hne & Hget & _).
    destruct (handleMcert_lister_keeps key1 w ns2 name) as [mcert2' Hfind2'];
      [by rewrite Hfind2|].
    destruct (handleMcert_settled key2 ns2 name mcert2'
                (after (handleMcert key1 w))
                sslCertificateName sslCert Hsplit2 Hfind2' Hmapped Hne Hget)
      as (HnoCreate & HnoPut & HnoRandom & Hstate & _).
    repeat apply conj; try done.
    exists sslCertificateName. split; [by rewrite Hstate|].
    by apply (handleMcert_settled_names key2 ns2 name mcert2'
                (after (handleMcert key1 w)) sslCertificateName sslCert).
Qed.

(** ** More on the status refresh *)

Lemma translateDomainStatus_known status :
  status ∈ domainStatusCodes -> exists translated, translateDomainStatus status = Ok translated.
Proof.
  unfold domainStatusCodes. rewrite !elem_of_cons, elem_of_nil.
  intros Hin. decompose [or] Hin; subst; try (eexists; reflexivity); done.
Qed.

Lemma fold_left_append_slice (l xs : list DomainStatus) :
  fold_left append xs (slice_of l) = slice_of (l ++ xs).
Proof.
  revert l. induction xs as [|x xs IH]; intros l; simpl.
  - by rewrite app_nil_r.
  - by rewrite IH, <- app_assoc.
Qed.

Lemma translateDomainStatuses_recognised (acc : slice DomainStatus)
    (entries : list (string * string)) :
  Forall (fun entry => entry.2 ∈ domainStatusCodes) entries ->
  exists translated,
    translateDomainStatuses acc entries = Ok (fold_left append translated acc) /\
    Forall2 (fun entry t =>
               Domain t = entry.1 /\ translateDomainStatus entry.2 = Ok (Status t))
            entries translated.
Proof.
  intros Hall. revert acc.
  induction Hall as [|[domain status] entries Hin _ IH]; intros acc.
  - exists []. split; [done|constructor].
  - destruct (translateDomainStatus_known status Hin) as [t Ht].
    destruct (IH (append acc {| Domain := domain; Status := t |}))
      as (translated & Hrest & Hall2).
    exists ({| Domain := domain; Status := t |} :: translated).
    simpl. rewrite Ht. split; [done|]. by constructor.
Qed.

Lemma translateDomainStatuses_unrecognised (acc : slice DomainStatus)
    (before rest : list (string * string)) (entry : string * string) :
  Forall (fun entry => entry.2 ∈ domainStatusCodes) before ->
  entry.2 ∉ domainStatusCodes ->
  translateDomainStatuses acc (before ++ entry :: rest) =
  Err (ErrUnexpectedDomainStatus entry.2).
Proof.
  intros Hall Hnot. revert acc.
  induction Hall as [|[domain status] before Hin _ IH]; intros acc; simpl.
  - destruct entry as [domain status]. simpl in *.
    by rewrite (translateDomainStatus_unknown status Hnot).
  - destruct (translateDomainStatus_known status Hin) as [t ->]. apply IH.
Qed.

(** X5: the loop over the per-domain statuses translates every entry or
    none.  Entries that are all recognised give one [DomainStatus] per
    entry, in the order the entries are visited, each with the domain of
    its entry and the translation of its status.  Otherwise the result is
    the error for the first entry with a status that is not recognised,
    whatever follows it. *)
Theorem translateDomainStatuses_all_or_first_error :
  (forall entries : list (string * string),
     entries <> [] ->
     Forall (fun entry => entry.2 ∈ domainStatusCodes) entries ->
     exists translated,
       translateDomainStatuses nil_slice entries = Ok (slice_of translated) /\
       Forall2 (fun entry t =>
                  Domain t = entry.1 /\
                  translateDomainStatus entry.2 = Ok (Status t))
               entries translated) /\
  (forall (before rest : list (string * string)) (entry : string * string),
     Forall (fun entry => entry.2 ∈ domainStatusCodes) before ->
     entry.2 ∉ domainStatusCodes ->
     translateDomainStatuses nil_slice (before ++ entry :: rest) =
     Err (ErrUnexpectedDomainStatus entry.2)).
Proof.
  split.
  - intros entries Hne Hall.
    destruct (translateDomainStatuses_recognised nil_slice entries Hall)
      as (translated & Hok & Hall2).
    exists translated. split; [|done]. rewrite Hok.
    destruct Hall2 as [|entry t entries translated _ _]; [done|].
    simpl. by rewrite fold_left_append_slice.
  - intros before rest entry. apply translateDomainStatuses_unrecognised.
Qed.

(** X1: where the name is mapped, the provider returns the certificate
    and all its statuses are recognised, [updateStatus] assigns the
    translated overall status, the translated per-domain statuses and the
    name the provider's certificate carries, and nothing else: identity,
    spec and expire time of the object stay.  It then calls [Update] once,
    with that object in the object's namespace, and returns what [Update]
    returns. *)
Theorem updateStatus_writes_status (mcert : ManagedCertificate) (w : World)
    (sslCertificateName : string) (sslCert : SslCertificate)
    (certificateStatus : string) (domainStatus : slice DomainStatus) :
  state w !! Name mcert = Some sslCertificateName ->
  sslClient_Get (sslClient w) sslCertificateName = Ok sslCert ->
  translateCertificateStatus (Managed_Status (Managed sslCert))
    = Some certificateStatus ->
  translateDomainStatuses nil_slice (Managed_DomainStatus (Managed sslCert))
    = Ok domainStatus ->
  let r := updateStatus mcert w in
  let written := (value r).1 in
  mcert_Status written =
    {| CertificateName := SslCertificate_Name sslCert;
       CertificateStatus := certificateStatus;
       Status_DomainStatus := domainStatus;
       ExpireTime := ExpireTime (mcert_Status mcert) |} /\
  Namespace written = Namespace mcert /\
  Name written = Name mcert /\
  Spec written = Spec mcert /\
  calls r = [StateGet (Name mcert); SslGet sslCertificateName;
             McertUpdate (Namespace mcert) written] /\
  (value r).2 =
    (ManagedCertificates_Update (client w) (Namespace mcert) written).2 /\
  client (after r) =
    (ManagedCertificates_Update (client w) (Namespace mcert) written).1.
Proof.
  intros Hstate Hget Hstatus Hdomains.
  run_calls. rewrite Hstate. simpl. rewrite Hget, Hstatus, Hdomains. simpl.
  by_cases.
Qed.

(** X2: where the overall status is recognised and a per-domain status
    is not, [updateStatus] returns the error of the translation and calls
    no [Update], but the object has its overall status assigned already:
    it is left with the new [CertificateStatus] next to the certificate
    name and the per-domain statuses it had. *)
Theorem updateStatus_partial_assignment (mcert : ManagedCertificate) (w : World)
    (sslCertificateName : string) (sslCert : SslCertificate)
    (certificateStatus : string) (err : error) :
  state w !! Name mcert = Some sslCertificateName ->
  sslClient_Get (sslClient w) sslCertificateName = Ok sslCert ->
  translateCertificateStatus (Managed_Status (Managed sslCert))
    = Some certificateStatus ->
  translateDomainStatuses nil_slice (Managed_DomainStatus (Managed sslCert))
    = Err err ->
  let r := updateStatus mcert w in
  (value r).2 = Some err /\
  mcert_Status (value r).1 =
    {| CertificateName := CertificateName (mcert_Status mcert);
       CertificateStatus := certificateStatus;
       Status_DomainStatus := Status_DomainStatus (mcert_Status mcert);
       ExpireTime := ExpireTime (mcert_Status mcert) |} /\
  countEvents isMcertUpdate (calls r) = 0%nat /\
  after r = w.
Proof.
  intros Hstate Hget Hstatus Hdomains.
  run_calls. rewrite Hstate. simpl. by rewrite Hget, Hstatus, Hdomains.
Qed.

(** X3: without a mapping for the name of the object [updateStatus]
    fails before it calls the provider; with a mapping and a provider
    that fails to return the certificate it fails with the provider's
    error.  Either way the object and the world are as they were and no
    [Update] is called. *)
Theorem updateStatus_fails_early (mcert : ManagedCertificate) (w : World) :
  let r := updateStatus mcert w in
  (state w !! Name mcert = None ->
   value r = (mcert, Some (ErrNotInState (Name mcert))) /\
   calls r = [StateGet (Name mcert)] /\ after r = w) /\
  (forall sslCertificateName err,
     state w !! Name mcert = Some sslCertificateName ->
     sslClient_Get (sslClient w) sslCertificateName = Err err ->
     value r = (mcert, Some err) /\
     calls r = [StateGet (Name mcert); SslGet sslCertificateName] /\
     after r = w).
Proof.
  run_calls. split.
  - intros Hstate. by rewrite Hstate.
  - intros sslCertificateName err Hstate Hget. rewrite Hstate. simpl.
    by rewrite Hget.
Qed.

(** ** More on the reconciliation of a ManagedCertificate *)

(** The calls of one reconciliation, counted. *)
Lemma handleMcert_calls (key : string) (w : World) :
  let r := handleMcert key w in
  (countEvents isListerGet (calls r) <= 1)%nat /\
  (countEvents isRandomName (calls r) <= 2)%nat /\
  (countEvents isStatePut (calls r) <= 1)%nat /\
  (countEvents isSslCreate (calls r) <= 1)%nat /\
  (countEvents isMcertUpdate (calls r) <= 1)%nat /\
  countEvents isQueueCall (calls r) = 0%nat /\
  Mcert_queue (after r) = Mcert_queue w /\
  Ingress_queue (after r) = Ingress_queue w.
Proof.
  run_calls. repeat apply conj; by_cases; unfold countEvents; simpl; lia.
Qed.

(** X11: one reconciliation calls the lister at most once, generates at
    most two names, makes at most one [Put], at most one [Create] and at
    most one [Update], and has nothing to do with the queues: it calls
    none and leaves both as they are. *)
Theorem handleMcert_bounds (key : string) (w : World) :
  let r := handleMcert key w in
  (countEvents isListerGet (calls r) <= 1)%nat /\
  (countEvents isRandomName (calls r) <= 2)%nat /\
  (countEvents isStatePut (calls r) <= 1)%nat /\
  (countEvents isSslCreate (calls r) <= 1)%nat /\
  (countEvents isMcertUpdate (calls r) <= 1)%nat /\
  countEvents isQueueCall (calls r) = 0%nat /\
  Mcert_queue (after r) = Mcert_queue w /\
  Ingress_queue (after r) = Ingress_queue w.
Proof. exact (handleMcert_calls key w). Qed.

(** What [createSslCertificateNameIfNeeded] does to the Identity Store. *)
Lemma createSslCertificateNameIfNeeded_state (name : string) (w : World) :
  let r := createSslCertificateNameIfNeeded name w in
  (forall sslCertificateName,
     value r = Ok sslCertificateName ->
     state (after r) !! name = Some sslCertificateName) /\
  (forall err, value r = Err err -> state (after r) = state w) /\
  (forall other, other <> name -> state (after r) !! other = state w !! other) /\
  (forall other sslCertificateName,
     state w !! other = Some sslCertificateName ->
     sslCertificateName <> "" ->
     state (after r) !! other = Some sslCertificateName).
Proof.
  cbv zeta.
  destruct (state w !! name) as [mapped|] eqn:Hstate;
    [destruct (decide (mapped = "")) as [->|Hne]|].
  2: { rewrite (createSslCertificateNameIfNeeded_reuse name w mapped Hstate Hne).
       rewrite value_run, after_run. repeat apply conj; try done.
       by intros sslCertificateName [= <-]. }
  all: assert (Hfresh : state w !! name = None \/ state w !! name = Some "")
         by (rewrite Hstate; auto).
  all: pose proof (createSslCertificateNameIfNeeded_fresh name w Hfresh) as Hpost.
  all: destruct (randomName_frame w) as (Hst & _).
  all: cbv zeta in Hpost.
  all: destruct (value (randomName w)) as [generated|err];
         destruct Hpost as (-> & _ & ->).
  all: repeat apply conj; try done.
  all: try (intros sslCertificateName [= <-]; apply lookup_insert_eq).
  all: try (intros other Hother; simpl; by rewrite lookup_insert_ne).
  all: try (intros other sslCertificateName Hother Hne;
            assert (other <> name) by congruence;
            simpl; by rewrite lookup_insert_ne).
  all: try (intros other sslCertificateName Hother Hne; by rewrite Hst).
  all: try (intros other Hother; by rewrite Hst).
Qed.

(** X7: the name [createSslCertificateNameIfNeeded] returns is the name
    the Identity Store holds for the ManagedCertificate afterwards, and
    if it is not empty a second call returns it again after one read of
    the store, with no name generated and nothing put.  When the call
    returns an error the store is as before.  No other entry is touched,
    and an entry with a non-empty provider name is never replaced. *)
Theorem createSslCertificateNameIfNeeded_records (name : string) (w : World) :
  let r := createSslCertificateNameIfNeeded name w in
  (forall sslCertificateName,
     value r = Ok sslCertificateName ->
     state (after r) !! name = Some sslCertificateName /\
     (sslCertificateName <> "" ->
      createSslCertificateNameIfNeeded name (after r) =
      (Ok sslCertificateName, after r, [StateGet name]))) /\
  (forall err, value r = Err err -> state (after r) = state w) /\
  (forall other, other <> name -> state (after r) !! other = state w !! other) /\
  (forall other sslCertificateName,
     state w !! other = Some sslCertificateName ->
     sslCertificateName <> "" ->
     state (after r) !! other = Some sslCertificateName).
Proof.
  destruct (createSslCertificateNameIfNeeded_state name w)
    as (Hnamed & Herr & Hother & Hkeeps).
  cbv zeta. repeat apply conj; try done.
  intros sslCertificateName Hvalue. split; [by apply Hnamed|].
  intros Hne. apply createSslCertificateNameIfNeeded_reuse; [|done].
  by apply Hnamed.
Qed.

Lemma handleMcert_keeps_mappings (key : string) (w : World)
    (other sslCertificateName : string) :
  state w !! other = Some sslCertificateName ->
  sslCertificateName <> "" ->
  state (after (handleMcert key w)) !! other = Some sslCertificateName.
Proof.
  intros Hother Hne.
  destruct (SplitMetaNamespaceKey key) as [[ns name]|err] eqn:Hsplit.
  2: { unfold handleMcert. by rewrite Hsplit. }
  destruct (cache_find ns name (lister w)) as [mcert|] eqn:Hfind.
  2: { unfold handleMcert. rewrite Hsplit.
       unfold bind, lister_Get, ret. by rewrite Hfind. }
  pose proof (handleMcert_steps key ns name mcert w Hsplit Hfind) as Hsteps.
  destruct (createSslCertificateNameIfNeeded_state name w)
    as (_ & _ & _ & Hkeeps).
  specialize (Hkeeps other sslCertificateName Hother Hne).
  cbv zeta in *.
  set (rn := createSslCertificateNameIfNeeded name w) in *.
  destruct (value rn) as [generated|err].
  2: { by destruct Hsteps as (_ & -> & _). }
  destruct (createSslCertificateIfNeeded_frame generated mcert (after rn))
    as (HcState & _).
  cbv zeta in *.
  set (rc := createSslCertificateIfNeeded generated mcert (after rn)) in *.
  destruct (value rc) as [err|].
  { destruct Hsteps as (_ & -> & _). by rewrite HcState. }
  destruct (updateStatus_frame mcert (after rc)) as (HuState & _).
  destruct Hsteps as (_ & -> & _). simpl. by rewrite HuState, HcState.
Qed.

(** What a successful [updateStatus] has read and written. *)
Lemma updateStatus_success (mcert : ManagedCertificate) (w : World) :
  let r := updateStatus mcert w in
  (value r).2 = None ->
  exists sslCertificateName sslCert,
    state w !! Name mcert = Some sslCertificateName /\
    sslClient_Get (sslClient w) sslCertificateName = Ok sslCert /\
    CertificateName (mcert_Status (value r).1) = SslCertificate_Name sslCert /\
    translateCertificateStatus (Managed_Status (Managed sslCert))
      = Some (CertificateStatus (mcert_Status (value r).1)) /\
    translateDomainStatuses nil_slice (Managed_DomainStatus (Managed sslCert))
      = Ok (Status_DomainStatus (mcert_Status (value r).1)) /\
    calls r = [StateGet (Name mcert); SslGet sslCertificateName;
               McertUpdate (Namespace mcert) (value r).1].
Proof.
  run_calls. by_cases; intros; simplify_eq; eauto 10.
Qed.

Lemma updateStatus_identity (mcert : ManagedCertificate) (w : World) :
  identityAndSpec (value (updateStatus mcert w)).1 = identityAndSpec mcert.
Proof. run_calls. by_cases. Qed.

Lemma cache_assign_identity (ns name : string) (objs : list ManagedCertificate)
    (mcert mcert' : ManagedCertificate) :
  cache_find ns name objs = Some mcert ->
  identityAndSpec mcert' = identityAndSpec mcert ->
  identityAndSpec <$> cache_assign mcert' objs = identityAndSpec <$> objs.
Proof.
  intros Hfind Hsame.
  destruct (cache_find_Some _ _ _ _ Hfind) as [<- <-].
  pose proof Hsame as Hcopy. unfold identityAndSpec in Hcopy.
  injection Hcopy as Hn Hm _ _.
  induction objs as [|obj objs IH]; simpl in *; [done|].
  rewrite Hn, Hm.
  destruct (sameObject (Namespace mcert) (Name mcert) obj).
  - injection Hfind as ->. rewrite !fmap_cons. by rewrite Hsame.
  - rewrite !fmap_cons. f_equal. by apply IH.
Qed.

(** X9: a key of more than two parts, or a key whose ManagedCertificate
    the lister does not have, makes [handleMcert] return an error with
    the world as it was: the Identity Store, the provider and the cluster
    are not called. *)
Theorem handleMcert_without_object (key : string) (w : World) :
  let r := handleMcert key w in
  (forall err,
     SplitMetaNamespaceKey key = Err err ->
     value r = Some err /\ calls r = [] /\ after r = w) /\
  (forall ns name,
     SplitMetaNamespaceKey key = Ok (ns, name) ->
     cache_find ns name (lister w) = None ->
     value r = Some (CollaboratorError "managedcertificate not found") /\
     calls r = [ListerGet ns name] /\ after r = w).
Proof.
  cbv zeta. split.
  - intros err Hsplit. unfold handleMcert. by rewrite Hsplit.
  - intros ns name Hsplit Hfind. unfold handleMcert. rewrite Hsplit.
    unfold bind, lister_Get, ret. by rewrite Hfind.
Qed.

(** X10: a reconciliation that returns no error has established the
    whole chain: the name is mapped, the provider returns the mapped
    certificate, the object in the lister's cache carries the name and
    the translated statuses of that certificate, and the last call of the
    reconciliation was the [Update] of that object in its namespace. *)
Theorem handleMcert_success (key ns name : string) (w : World) :
  SplitMetaNamespaceKey key = Ok (ns, name) ->
  let r := handleMcert key w in
  value r = None ->
  exists sslCertificateName sslCert written,
    state (after r) !! name = Some sslCertificateName /\
    sslClient_Get (sslClient (after r)) sslCertificateName = Ok sslCert /\
    cache_find ns name (lister (after r)) = Some written /\
    CertificateName (mcert_Status written) = SslCertificate_Name sslCert /\
    translateCertificateStatus (Managed_Status (Managed sslCert))
      = Some (CertificateStatus (mcert_Status written)) /\
    translateDomainStatuses nil_slice (Managed_DomainStatus (Managed sslCert))
      = Ok (Status_DomainStatus (mcert_Status written)) /\
    last (calls r) = Some (McertUpdate ns written).
Proof.
  intros Hsplit. cbv zeta.
  destruct (cache_find ns name (lister w)) as [mcert|] eqn:Hfind.
  2: { unfold handleMcert. rewrite Hsplit.
       unfold bind, lister_Get, ret. by rewrite Hfind. }
  pose proof (handleMcert_steps key ns name mcert w Hsplit Hfind) as Hsteps.
  destruct (cache_find_Some _ _ _ _ Hfind) as [Hns Hname].
  destruct (createSslCertificateNameIfNeeded_post name w)
    as (_ & HnLister & _).
  cbv zeta in *.
  set (rn := createSslCertificateNameIfNeeded name w) in *.
  destruct (value rn) as [generated|err].
  2: { destruct Hsteps as (-> & _). done. }
  destruct (createSslCertificateIfNeeded_frame generated mcert (after rn))
    as (_ & HcLister & _).
  cbv zeta in *.
  set (rc := createSslCertificateIfNeeded generated mcert (after rn)) in *.
  destruct (value rc) as [err|].
  { destruct Hsteps as (-> & _). done. }
  destruct (updateStatus_frame mcert (after rc))
    as (HuState & HuSsl & HuLister & _ & _ & _ & HuNs & HuName & _).
  pose proof (updateStatus_success mcert (after rc)) as Hsuccess.
  cbv zeta in *.
  set (ru := updateStatus mcert (after rc)) in *.
  destruct Hsteps as (-> & -> & ->). intros Hnone.
  destruct (Hsuccess Hnone)
    as (sslCertificateName & sslCert & Hmapped & Hget & HcertName & Hstatus
        & Hdomains & Hcalls).
  exists sslCertificateName, sslCert, (value ru).1.
  repeat apply conj; try done.
  - simpl. by rewrite HuState, <- Hname.
  - simpl. by rewrite HuSsl.
  - simpl. apply cache_find_assign with (mcert := mcert).
    + by rewrite HuLister, HcLister, HnLister.
    + by rewrite HuNs.
    + by rewrite HuName.
  - rewrite Hcalls, Hns.
    rewrite app_comm_cons, !app_assoc.
    change [StateGet (Name mcert); SslGet sslCertificateName;
            McertUpdate ns (value ru).1]
      with ([StateGet (Name mcert); SslGet sslCertificateName]
              ++ [McertUpdate ns (value ru).1]).
    rewrite app_assoc. apply last_snoc.
Qed.

Lemma cache_assign_position (ns name : string) (objs : list ManagedCertificate)
    (mcert mcert' : ManagedCertificate) :
  cache_find ns name objs = Some mcert ->
  Namespace mcert' = ns -> Name mcert' = name ->
  exists before rest,
    objs = before ++ mcert :: rest /\
    cache_assign mcert' objs = before ++ mcert' :: rest.
Proof.
  intros Hfind <- <-.
  induction objs as [|obj objs IH]; simpl in *; [done|].
  destruct (sameObject (Namespace mcert') (Name mcert') obj).
  - injection Hfind as ->. by exists [], objs.
  - destruct (IH Hfind) as (before & rest & -> & ->).
    by exists (obj :: before), rest.
Qed.

(** The lister's cache after a reconciliation: as it was, or with the
    reconciled object assigned to. *)
Lemma handleMcert_lister (key : string) (w : World) :
  lister (after (handleMcert key w)) = lister w \/
  exists ns name mcert written,
    SplitMetaNamespaceKey key = Ok (ns, name) /\
    cache_find ns name (lister w) = Some mcert /\
    identityAndSpec written = identityAndSpec mcert /\
    lister (after (handleMcert key w)) = cache_assign written (lister w).
Proof.
  destruct (SplitMetaNamespaceKey key) as [[ns name]|err] eqn:Hsplit.
  2: { left. unfold handleMcert. by rewrite Hsplit. }
  destruct (cache_find ns name (lister w)) as [mcert|] eqn:Hfind.
  2: { left. unfold handleMcert. rewrite Hsplit.
       unfold bind, lister_Get, ret. by rewrite Hfind. }
  pose proof (handleMcert_steps key ns name mcert w Hsplit Hfind) as Hsteps.
  destruct (createSslCertificateNameIfNeeded_post name w)
    as (_ & HnLister & _).
  cbv zeta in *.
  set (rn := createSslCertificateNameIfNeeded name w) in *.
  destruct (value rn) as [generated|err].
  2: { left. destruct Hsteps as (_ & -> & _). by rewrite HnLister. }
  destruct (createSslCertificateIfNeeded_frame generated mcert (after rn))
    as (_ & HcLister & _).
  cbv zeta in *.
  set (rc := createSslCertificateIfNeeded generated mcert (after rn)) in *.
  destruct (value rc) as [err|].
  { left. destruct Hsteps as (_ & -> & _). by rewrite HcLister, HnLister. }
  destruct (updateStatus_frame mcert (after rc)) as (_ & _ & HuLister & _).
  pose proof (updateStatus_identity mcert (after rc)) as Hidentity.
  destruct Hsteps as (_ & -> & _).
  right. exists ns, name, mcert, (value (updateStatus mcert (after rc))).1.
  repeat split; try done.
  simpl. by rewrite HuLister, HcLister, HnLister.
Qed.

(** X12: a reconciliation leaves every object of the lister's cache its
    namespace, its name, its spec and its expire time, and the cache its
    objects in their order.  At most one object is changed at all: the
    one the lister finds for the key, which is replaced where it stands
    by an object of the same identity, spec and expire time; every other
    object is what it was, status included. *)
Theorem handleMcert_keeps_objects (key : string) (w : World) :
  let r := handleMcert key w in
  identityAndSpec <$> lister (after r) = identityAndSpec <$> lister w /\
  (lister (after r) = lister w \/
   exists ns name before mcert rest written,
     SplitMetaNamespaceKey key = Ok (ns, name) /\
     cache_find ns name (lister w) = Some mcert /\
     lister w = before ++ mcert :: rest /\
     lister (after r) = before ++ written :: rest /\
     identityAndSpec written = identityAndSpec mcert).
Proof.
  cbv zeta.
  destruct (handleMcert_lister key w)
    as [Hsame|(ns & name & mcert & written & Hsplit & Hfind & Hidentity & Hlister)].
  { rewrite Hsame. auto. }
  rewrite Hlister. split.
  - by apply cache_assign_identity with (ns := ns) (name := name) (mcert := mcert).
  - right.
    destruct (cache_find_Some _ _ _ _ Hfind) as [Hns Hname].
    pose proof Hidentity as Hcopy. unfold identityAndSpec in Hcopy.
    injection Hcopy as Hn Hm _ _.
    destruct (cache_assign_position ns name (lister w) mcert written Hfind)
      as (before & rest & Hbefore & Hafter); [congruence|congruence|].
    exists ns, name, before, mcert, rest, written. by rewrite Hafter.
Qed.

Lemma randomName_collision (w : World) (name : string) (sslCert : SslCertificate) :
  nextRandom (entropy w) = Ok name ->
  sslClient_Get (sslClient w) name = Ok sslCert ->
  value (randomName w) = nextRandom (tail (entropy w)) /\
  countEvents isSslCreate (calls (randomName w)) = 0%nat.
Proof.
  intros Hrandom Hget. run_calls. rewrite Hrandom. simpl. rewrite Hget. simpl.
  by_cases.
Qed.

(** X13: where the name has no mapping, the first generated name is
    taken and the replacement is taken as well, the reconciliation maps
    the ManagedCertificate to the replacement all the same and finds
    that certificate at the provider: nothing is created, the provider
    is as it was, and the status written onto the object is the status
    of the certificate that was there before. *)
Theorem handleMcert_adopts_after_two_collisions (key ns name : string)
    (mcert : ManagedCertificate) (w : World) (first replacement : string)
    (taken adopted : SslCertificate) :
  SplitMetaNamespaceKey key = Ok (ns, name) ->
  cache_find ns name (lister w) = Some mcert ->
  state w !! name = None \/ state w !! name = Some "" ->
  nextRandom (entropy w) = Ok first ->
  sslClient_Get (sslClient w) first = Ok taken ->
  nextRandom (tail (entropy w)) = Ok replacement ->
  sslClient_Get (sslClient w) replacement = Ok adopted ->
  let r := handleMcert key w in
  state (after r) !! name = Some replacement /\
  countEvents isSslCreate (calls r) = 0%nat /\
  sslClient (after r) = sslClient w /\
  (value r = None ->
   exists written,
     cache_find ns name (lister (after r)) = Some written /\
     CertificateName (mcert_Status written) = SslCertificate_Name adopted /\
     translateCertificateStatus (Managed_Status (Managed adopted))
       = Some (CertificateStatus (mcert_Status written))).
Proof.
  intros Hsplit Hfind Hstate Hfirst Htaken Hreplacement Hadopted.
  pose proof (handleMcert_steps key ns name mcert w Hsplit Hfind) as Hsteps.
  pose proof (createSslCertificateNameIfNeeded_fresh name w Hstate) as Hfresh.
  destruct (randomName_collision w first taken Hfirst Htaken) as [Hvalue HnoCreate].
  destruct (randomName_frame w) as (HrState & HrSsl & HrLister & _).
  destruct (cache_find_Some _ _ _ _ Hfind) as [Hns Hname].
  cbv zeta in *. rewrite Hvalue, Hreplacement in Hfresh.
  destruct Hfresh as (HnValue & HnCalls & HnAfter).
  rewrite HnValue in Hsteps.
  assert (Hget : sslClient_Get
                   (sslClient (after (createSslCertificateNameIfNeeded name w)))
                   replacement = Ok adopted).
  { rewrite HnAfter. simpl. by rewrite HrSsl. }
  rewrite (createSslCertificateIfNeeded_found _ mcert _ _ Hget) in Hsteps.
  rewrite value_run, after_run, calls_run in Hsteps.
  set (wn := after (createSslCertificateNameIfNeeded name w)) in *.
  destruct (updateStatus_frame mcert wn)
    as (HuState & HuSsl & HuLister & _ & _ & _ & HuNs & HuName & _ & _ & HuCreate & _).
  pose proof (updateStatus_success mcert wn) as Hsuccess.
  cbv zeta in Hsuccess.
  assert (Hmapped : state wn !! name = Some replacement).
  { subst wn. rewrite HnAfter. simpl. apply lookup_insert_eq. }
  destruct Hsteps as (HrValue & -> & ->).
  repeat apply conj.
  - simpl. by rewrite HuState.
  - rewrite HnCalls. count_events. by rewrite HnoCreate, HuCreate.
  - simpl. rewrite HuSsl. subst wn. rewrite HnAfter. simpl. by rewrite HrSsl.
  - rewrite HrValue. intros Hnone.
    destruct (Hsuccess Hnone)
      as (sslCertificateName & sslCert & Hmapped' & Hget' & HcertName & Hstatus & _).
    rewrite Hname, Hmapped in Hmapped'. injection Hmapped' as <-.
    rewrite Hget in Hget'. injection Hget' as <-.
    exists (value (updateStatus mcert wn)).1. repeat apply conj; try done.
    simpl. apply cache_find_assign with (mcert := mcert).
    + rewrite HuLister. subst wn. rewrite HnAfter. simpl. by rewrite HrLister.
    + by rewrite HuNs.
    + by rewrite HuName.
Qed.

(** X14: a reconciliation calls [Create] only for the name the Identity
    Store holds for the ManagedCertificate afterwards, only when the
    provider did not return a certificate of that name as the
    reconciliation began, and only with the domains of the object's
    spec. *)
Theorem handleMcert_creates_only_missing (key ns name : string)
    (mcert : ManagedCertificate) (w : World) :
  SplitMetaNamespaceKey key = Ok (ns, name) ->
  cache_find ns name (lister w) = Some mcert ->
  let r := handleMcert key w in
  forall sslCertificateName domains outcome,
    SslCreate sslCertificateName domains outcome ∈ calls r ->
    domains = Domains (Spec mcert) /\
    state (after r) !! name = Some sslCertificateName /\
    exists err, sslClient_Get (sslClient w) sslCertificateName = Err err.
Proof.
  intros Hsplit Hfind. cbv zeta. intros sslCertificateName domains outcome.
  pose proof (handleMcert_steps key ns name mcert w Hsplit Hfind) as Hsteps.
  destruct (createSslCertificateNameIfNeeded_post name w)
    as (HnSsl & _ & HnCreate & _).
  destruct (createSslCertificateNameIfNeeded_state name w) as (HnNamed & _).
  cbv zeta in *.
  set (rn := createSslCertificateNameIfNeeded name w) in *.
  assert (Hnot : forall evs : list Event,
            countEvents isSslCreate evs = 0%nat ->
            SslCreate sslCertificateName domains outcome ∈ evs -> False).
  { intros evs Hzero Hin.
    by pose proof (proj1 (countEvents_zero _ _) Hzero _ Hin). }
  destruct (value rn) as [generated|err] eqn:Hrn.
  2: { destruct Hsteps as (_ & _ & ->).
       intros [?|Hin]%elem_of_cons; [done|]. by destruct (Hnot _ HnCreate). }
  specialize (HnNamed generated eq_refl).
  destruct (createSslCertificateIfNeeded_frame generated mcert (after rn))
    as (HcState & _).
  assert (Hcreated :
    SslCreate sslCertificateName domains outcome
      ∈ calls (createSslCertificateIfNeeded generated mcert (after rn)) ->
    domains = Domains (Spec mcert) /\ sslCertificateName = generated /\
    exists err, sslClient_Get (sslClient w) sslCertificateName = Err err).
  { destruct (sslClient_Get (sslClient (after rn)) generated)
      as [sslCert|err] eqn:Hget.
    - rewrite (createSslCertificateIfNeeded_found _ _ _ _ Hget), calls_run.
      by intros ?%list_elem_of_singleton.
    - rewrite (createSslCertificateIfNeeded_missing _ _ _ _ Hget). cbv zeta.
      rewrite calls_run.
      intros [?|Hin%list_elem_of_singleton]%elem_of_cons; [done|].
      injection Hin as -> -> _. rewrite <- HnSsl. eauto. }
  cbv zeta in *.
  set (rc := createSslCertificateIfNeeded generated mcert (after rn)) in *.
  destruct (value rc) as [err|].
  { destruct Hsteps as (_ & -> & ->).
    intros [?|[Hin|Hin]%elem_of_app]%elem_of_cons; [done| |].
    - by destruct (Hnot _ HnCreate).
    - destruct (Hcreated Hin) as (-> & -> & Hmissing).
      repeat split; [|done]. by rewrite HcState. }
  destruct (updateStatus_frame mcert (after rc))
    as (HuState & _ & _ & _ & _ & _ & _ & _ & _ & _ & HuCreate & _).
  destruct Hsteps as (_ & -> & ->).
  intros [?|[Hin|[Hin|Hin]%elem_of_app]%elem_of_app]%elem_of_cons; [done| | |].
  - by destruct (Hnot _ HnCreate).
  - destruct (Hcreated Hin) as (-> & -> & Hmissing).
    repeat split; [|done]. simpl. by rewrite HuState, HcState.
  - by destruct (Hnot _ HuCreate).
Qed.

(** X4: the object [updateStatus] assigns to is the object in the
    lister's cache.  Where the name is mapped, the certificate is at the
    provider and its statuses are recognised, the cached object carries
    the new status after the reconciliation, also when [Update] returned
    an error and the reconciliation returns it: the cache then shows a
    status the cluster has refused. *)
Theorem handleMcert_cache_ahead_of_cluster (key ns name : string)
    (mcert : ManagedCertificate) (w : World) (sslCertificateName : string)
    (sslCert : SslCertificate) (certificateStatus : string)
    (domainStatus : slice DomainStatus) :
  SplitMetaNamespaceKey key = Ok (ns, name) ->
  cache_find ns name (lister w) = Some mcert ->
  state w !! name = Some sslCertificateName ->
  sslCertificateName <> "" ->
  sslClient_Get (sslClient w) sslCertificateName = Ok sslCert ->
  translateCertificateStatus (Managed_Status (Managed sslCert))
    = Some certificateStatus ->
  translateDomainStatuses nil_slice (Managed_DomainStatus (Managed sslCert))
    = Ok domainStatus ->
  let r := handleMcert key w in
  exists written,
    cache_find ns name (lister (after r)) = Some written /\
    mcert_Status written =
      {| CertificateName := SslCertificate_Name sslCert;
         CertificateStatus := certificateStatus;
         Status_DomainStatus := domainStatus;
         ExpireTime := ExpireTime (mcert_Status mcert) |} /\
    value r = (ManagedCertificates_Update (client w) ns written).2.
Proof.
  intros Hsplit Hfind Hstate Hne Hget Hstatus Hdomains.
  pose proof (handleMcert_steps key ns name mcert w Hsplit Hfind) as Hsteps.
  destruct (cache_find_Some _ _ _ _ Hfind) as [Hns Hname].
  cbv zeta in *.
  rewrite (createSslCertificateNameIfNeeded_reuse name w _ Hstate Hne) in Hsteps.
  rewrite value_run, after_run, calls_run in Hsteps.
  rewrite (createSslCertificateIfNeeded_found _ mcert w _ Hget) in Hsteps.
  rewrite value_run, after_run, calls_run in Hsteps.
  destruct Hsteps as (-> & -> & _).
  destruct (updateStatus_frame mcert w)
    as (_ & _ & HuLister & _ & _ & _ & HuNs & HuName & _).
  exists (value (updateStatus mcert w)).1. repeat apply conj.
  - simpl. apply cache_find_assign with (mcert := mcert).
    + by rewrite HuLister.
    + by rewrite HuNs.
    + by rewrite HuName.
  - revert Hstate Hget Hstatus Hdomains. rewrite <- Hname. clear.
    intros Hstate Hget Hstatus Hdomains.
    run_calls. rewrite Hstate. simpl. rewrite Hget, Hstatus, Hdomains. simpl.
    by_cases.
  - revert Hstate Hget Hstatus Hdomains. rewrite <- Hname, <- Hns. clear.
    intros Hstate Hget Hstatus Hdomains.
    run_calls. rewrite Hstate. simpl. rewrite Hget, Hstatus, Hdomains. simpl.
    by_cases.
Qed.

(** ** More on the workers *)

(** One iteration of the Mcert worker for an item that waits, in terms of
    the reconciliation it runs. *)
Lemma processNext_item (w : World) (obj : Item) (rest : list Item) :
  items (Mcert_queue w) = obj :: rest ->
  let rh := handleMcert (assertString obj).1 (dequeued mcertQueue w) in
  processNext w =
  (Some true,
   match value rh with
   | Some _ => addedRateLimited mcertQueue obj (after rh)
   | None => after rh
   end,
   QueueGet mcertQueue ::
   (if (assertString obj).2 then []
    else [QueueForget mcertQueue obj;
          HandleError (ErrExpectedString "mcertQueue" obj)])
   ++ calls rh
   ++ match value rh with
      | Some err => [QueueAddRateLimited mcertQueue obj; HandleError err]
      | None => []
      end
   ++ [QueueForget mcertQueue obj; QueueDone mcertQueue obj]).
Proof.
  intros Hitems. cbv zeta.
  unfold processNext, dequeued.
  unfold bind at 1. unfold queue_Get. simpl. rewrite Hitems. simpl.
  destruct (handleMcert (assertString obj).1
              (with_Mcert_queue
                 {| items := rest; shuttingDown := shuttingDown (Mcert_queue w);
                    delayed := delayed (Mcert_queue w) |} w))
    as [[[err|] w2] evs] eqn:Hrun;
    destruct obj; simpl in *;
    unfold bind, ret, queue_Forget, queue_Done, queue_AddRateLimited,
      runtime_HandleError; simpl; rewrite Hrun; simpl;
    rewrite ?app_nil_r; done.
Qed.

(** One iteration of the Ingress worker for a key that waits. *)
Lemma processNextIngress_key (w : World) (key : string) (rest : list Item) :
  items (Ingress_queue w) = StringItem key :: rest ->
  let rh := handleIngress key (dequeued ingressQueue w) in
  processNextIngress w =
  (Some true,
   match value rh with
   | Some _ => addedRateLimited ingressQueue (StringItem key) (after rh)
   | None => after rh
   end,
   QueueGet ingressQueue :: calls rh
   ++ match value rh with
      | Some err => [QueueAddRateLimited ingressQueue (StringItem key);
                     QueueDone ingressQueue (StringItem key);
                     HandleError err]
      | None => [QueueForget ingressQueue (StringItem key);
                 QueueDone ingressQueue (StringItem key)]
      end).
Proof.
  intros Hitems. cbv zeta.
  unfold processNextIngress, dequeued.
  unfold bind at 1. unfold queue_Get. simpl. rewrite Hitems. simpl.
  destruct (handleIngress key
              (with_Ingress_queue
                 {| items := rest; shuttingDown := shuttingDown (Ingress_queue w);
                    delayed := delayed (Ingress_queue w) |} w))
    as [[[err|] w2] evs] eqn:Hrun;
    unfold bind, ret, queue_Forget, queue_Done, queue_AddRateLimited,
      runtime_HandleError; simpl; rewrite Hrun; simpl;
    rewrite ?app_nil_r, <- ?app_assoc; done.
Qed.

(** With nothing waiting, a worker blocks or, when the queue is shutting
    down, returns [false]. *)
Lemma processNext_empty (w : World) :
  items (Mcert_queue w) = [] ->
  processNext w =
  if shuttingDown (Mcert_queue w) then (Some false, w, [QueueGet mcertQueue])
  else (None, w, []).
Proof.
  intros Hitems. unfold processNext, bind, queue_Get, ret. simpl.
  rewrite Hitems. by destruct (shuttingDown (Mcert_queue w)).
Qed.

Lemma processNextIngress_empty (w : World) :
  items (Ingress_queue w) = [] ->
  processNextIngress w =
  if shuttingDown (Ingress_queue w)
  then (Some false, w, [QueueGet ingressQueue])
  else (None, w, []).
Proof.
  intros Hitems. unfold processNextIngress, bind, queue_Get, ret. simpl.
  rewrite Hitems. by destruct (shuttingDown (Ingress_queue w)).
Qed.

Lemma no_queue_calls (evs : list Event) :
  countEvents isQueueCall evs = 0%nat ->
  countEvents isForget evs = 0%nat /\
  countEvents isAddRateLimited evs = 0%nat /\
  omap doneItem evs = [].
Proof.
  intros Hzero. pose proof (proj1 (countEvents_zero _ _) Hzero) as Hnone.
  clear Hzero. induction evs as [|ev evs IH]; [done|].
  assert (HisNot : isQueueCall ev = false) by (apply Hnone; left).
  destruct IH as (IHf & IHa & IHd).
  { intros ev' Hin. apply Hnone. by right. }
  rewrite !countEvents_cons, IHf, IHa.
  destruct ev; simpl in *; rewrite ?IHd; done.
Qed.

(** What the loop of [handleIngress] leaves alone, and where what it
    hands to the Mcert controller comes from. *)
Lemma handleIngress_names_frame (ns : string) (names : list string) (w : World) :
  let r := handleIngress_names ns names w in
  state (after r) = state w /\
  sslClient (after r) = sslClient w /\
  client (after r) = client w /\
  entropy (after r) = entropy w /\
  lister (after r) = lister w /\
  Ingress_queue (after r) = Ingress_queue w /\
  shuttingDown (Mcert_queue (after r)) = shuttingDown (Mcert_queue w) /\
  delayed (Mcert_queue (after r)) = delayed (Mcert_queue w) /\
  countEvents isQueueCall (calls r) = 0%nat /\
  omap enqueued (calls r) =
    omap (fun name => cache_find ns name (lister w)) names.
Proof.
  revert w. induction names as [|name names IH]; intros w; cbv zeta; [done|].
  cbn [handleIngress_names].
  rewrite !bind_after, !bind_calls, !countEvents_app, !omap_app.
  unfold lister_Get at 1 2 3 4 5 6 7 8 9 10 11 12 13 14 15 16 17 18 19 20.
  rewrite ?value_run, ?after_run, ?calls_run.
  unfold lister_Get. rewrite ?value_run, ?after_run, ?calls_run.
  destruct (cache_find ns name (lister w)) as [mcert|] eqn:Hfind.
  - destruct (IH (after (Mcert_enqueue mcert w)))
      as (IH1 & IH2 & IH3 & IH4 & IH5 & IH6 & IH7 & IH8 & IH9 & IH10).
    rewrite IH1, IH2, IH3, IH4, IH5, IH6, IH7, IH8, IH9, IH10.
    simpl. by rewrite Hfind.
  - destruct (IH (after (runtime_HandleError
                           (CollaboratorError "managedcertificate not found") w)))
      as (IH1 & IH2 & IH3 & IH4 & IH5 & IH6 & IH7 & IH8 & IH9 & IH10).
    rewrite IH1, IH2, IH3, IH4, IH5, IH6, IH7, IH8, IH9, IH10.
    simpl. by rewrite Hfind.
Qed.

Lemma handleIngress_frame (key : string) (w : World) :
  let r := handleIngress key w in
  state (after r) = state w /\
  sslClient (after r) = sslClient w /\
  client (after r) = client w /\
  entropy (after r) = entropy w /\
  lister (after r) = lister w /\
  Ingress_queue (after r) = Ingress_queue w /\
  shuttingDown (Mcert_queue (after r)) = shuttingDown (Mcert_queue w) /\
  delayed (Mcert_queue (after r)) = delayed (Mcert_queue w) /\
  countEvents isQueueCall (calls r) = 0%nat.
Proof.
  cbv zeta. unfold handleIngress.
  destruct (SplitMetaNamespaceKey key) as [[ns name]|err]; [|done].
  assert (Hg : Ingress_Get ns name w =
               (Ingress_client_Get (client w) ns name, w, [IngressGet ns name]))
    by reflexivity.
  rewrite bind_after, bind_calls, Hg, value_run, after_run, calls_run.
  clear Hg.
  destruct (Ingress_client_Get (client w) ns name) as [ing|err]; [|done].
  destruct (Annotations ing !! annotation) as [annotationValue|]; [|done].
  rewrite bind_after, bind_calls.
  destruct (handleIngress_names_frame ns
              (range (parseAnnotation annotationValue)) w)
    as (F1 & F2 & F3 & F4 & F5 & F6 & F7 & F8 & F9 & _).
  simpl. rewrite app_nil_r. count_events. by rewrite F9.
Qed.

(** What one iteration of the Mcert worker does to its queue and to the
    Identity Store, whatever the item and however its reconciliation
    ends. *)
Lemma processNext_step (w : World) (obj : Item) (rest : list Item) :
  items (Mcert_queue w) = obj :: rest ->
  let r := processNext w in
  value r = Some true /\
  items (Mcert_queue (after r)) = rest /\
  shuttingDown (Mcert_queue (after r)) = shuttingDown (Mcert_queue w) /\
  omap doneItem (calls r) = [obj] /\
  (forall other sslCertificateName,
     state w !! other = Some sslCertificateName -> sslCertificateName <> "" ->
     state (after r) !! other = Some sslCertificateName).
Proof.
  intros Hitems. cbv zeta.
  rewrite (processNext_item w obj rest Hitems). cbv zeta.
  rewrite value_run, after_run, calls_run.
  destruct (handleMcert_calls (assertString obj).1 (dequeued mcertQueue w))
    as (_ & _ & _ & _ & _ & HnoQueue & HMcert & _).
  destruct (no_queue_calls _ HnoQueue) as (_ & _ & HnoDone).
  pose proof (handleMcert_keeps_mappings (assertString obj).1
                (dequeued mcertQueue w)) as Hkeeps.
  set (rh := handleMcert (assertString obj).1 (dequeued mcertQueue w)) in *.
  assert (Hdone : omap doneItem
            (QueueGet mcertQueue ::
             (if (assertString obj).2 then []
              else [QueueForget mcertQueue obj;
                    HandleError (ErrExpectedString "mcertQueue" obj)])
             ++ calls rh
             ++ match value rh with
                | Some err => [QueueAddRateLimited mcertQueue obj; HandleError err]
                | None => []
                end
             ++ [QueueForget mcertQueue obj; QueueDone mcertQueue obj]) = [obj]).
  { change (omap doneItem
              ([QueueGet mcertQueue] ++
               (if (assertString obj).2 then []
                else [QueueForget mcertQueue obj;
                      HandleError (ErrExpectedString "mcertQueue" obj)])
               ++ calls rh
               ++ match value rh with
                  | Some err => [QueueAddRateLimited mcertQueue obj; HandleError err]
                  | None => []
                  end
               ++ [QueueForget mcertQueue obj; QueueDone mcertQueue obj]) = [obj]).
    rewrite !omap_app, HnoDone.
    by destruct (assertString obj).2, (value rh). }
  assert (Hq : Mcert_queue (after rh) =
               {| items := rest; shuttingDown := shuttingDown (Mcert_queue w);
                  delayed := delayed (Mcert_queue w) |}).
  { rewrite HMcert. unfold dequeued. simpl. by rewrite Hitems. }
  repeat apply conj; try done.
  - destruct (value rh); simpl; by rewrite Hq.
  - destruct (value rh); simpl; by rewrite Hq.
  - intros other sslCertificateName Hother Hne.
    specialize (Hkeeps other sslCertificateName Hother Hne).
    by destruct (value rh).
Qed.

Lemma processNextIngress_step (w : World) (obj : Item) (rest : list Item) :
  items (Ingress_queue w) = obj :: rest ->
  let r := processNextIngress w in
  value r = Some true /\
  items (Ingress_queue (after r)) = rest /\
  shuttingDown (Ingress_queue (after r)) = shuttingDown (Ingress_queue w) /\
  omap doneItem (calls r) = [obj] /\
  state (after r) = state w /\
  sslClient (after r) = sslClient w /\
  client (after r) = client w /\
  lister (after r) = lister w.
Proof.
  intros Hitems. cbv zeta.
  destruct obj as [key|goType repr|].
  2,3: unfold processNextIngress, bind, ret, queue_Get, queue_Forget, queue_Done,
         runtime_HandleError; simpl; by rewrite Hitems.
  - rewrite (processNextIngress_key w key rest Hitems). cbv zeta.
    rewrite value_run, after_run, calls_run.
    destruct (handleIngress_frame key (dequeued ingressQueue w))
      as (F1 & F2 & F3 & F4 & F5 & F6 & _ & _ & HnoQueue).
    destruct (no_queue_calls _ HnoQueue) as (_ & _ & HnoDone).
    set (rh := handleIngress key (dequeued ingressQueue w)) in *.
    assert (Hq : Ingress_queue (after rh) =
                 {| items := rest; shuttingDown := shuttingDown (Ingress_queue w);
                    delayed := delayed (Ingress_queue w) |}).
    { rewrite F6. unfold dequeued. simpl. by rewrite Hitems. }
    repeat apply conj; try done.
    + destruct (value rh); simpl; by rewrite Hq.
    + destruct (value rh); simpl; by rewrite Hq.
    + change (QueueGet ingressQueue :: ?l) with ([QueueGet ingressQueue] ++ l).
      rewrite !omap_app, HnoDone. by destruct (value rh).
    + by destruct (value rh).
    + by destruct (value rh).
    + by destruct (value rh).
    + by destruct (value rh).
Qed.

(** X15: an iteration of the Mcert worker for a key that waits runs the
    reconciliation of that key and returns [true].  However the
    reconciliation ends, the last two calls are [Forget] and [Done] for
    the key; after an error the key has been handed to [AddRateLimited]
    and the error logged just before, so that the [Forget] follows the
    [AddRateLimited]. *)
Theorem processNext_forgets_on_every_path (w : World) (key : string)
    (rest : list Item) :
  items (Mcert_queue w) = StringItem key :: rest ->
  let r := processNext w in
  let rh := handleMcert key (dequeued mcertQueue w) in
  value r = Some true /\
  calls r =
    QueueGet mcertQueue :: calls rh
    ++ match value rh with
       | Some err => [QueueAddRateLimited mcertQueue (StringItem key);
                      HandleError err]
       | None => []
       end
    ++ [QueueForget mcertQueue (StringItem key);
        QueueDone mcertQueue (StringItem key)] /\
  countEvents isForget (calls r) = 1%nat /\
  countEvents isAddRateLimited (calls r) =
    match value rh with Some _ => 1 | None => 0 end%nat /\
  items (Mcert_queue (after r)) = rest /\
  delayed (Mcert_queue (after r)) =
    delayed (Mcert_queue w) ++ match value rh with Some _ => [StringItem key] | None => [] end.
Proof.
  intros Hitems. cbv zeta.
  rewrite (processNext_item w (StringItem key) rest Hitems). cbv zeta.
  rewrite value_run, after_run, calls_run.
  change (assertString (StringItem key)).1 with key.
  change (assertString (StringItem key)).2 with true. cbv iota.
  destruct (handleMcert_calls key (dequeued mcertQueue w))
    as (_ & _ & _ & _ & _ & HnoQueue & HMcert & _).
  destruct (no_queue_calls _ HnoQueue) as (HnoForget & HnoAdd & _).
  set (rh := handleMcert key (dequeued mcertQueue w)) in *.
  assert (Hq : Mcert_queue (after rh) =
               {| items := rest; shuttingDown := shuttingDown (Mcert_queue w);
                  delayed := delayed (Mcert_queue w) |}).
  { rewrite HMcert. unfold dequeued. simpl. by rewrite Hitems. }
  repeat apply conj; try done.
  - count_events. rewrite HnoForget. by destruct (value rh).
  - count_events. rewrite HnoAdd. by destruct (value rh).
  - destruct (value rh); simpl; by rewrite Hq.
  - destruct (value rh); simpl; rewrite Hq; simpl; by rewrite ?app_nil_r.
Qed.

(** X16: an iteration of the Ingress worker for a key that waits runs
    the reconciliation of that key and returns [true].  After success
    the key is forgotten and done.  After an error the key is handed to
    [AddRateLimited], done, and the error is logged: [Forget] is not
    called, so the key keeps its failure count. *)
Theorem processNextIngress_keeps_backoff (w : World) (key : string)
    (rest : list Item) :
  items (Ingress_queue w) = StringItem key :: rest ->
  let r := processNextIngress w in
  let rh := handleIngress key (dequeued ingressQueue w) in
  value r = Some true /\
  calls r =
    QueueGet ingressQueue :: calls rh
    ++ match value rh with
       | Some err => [QueueAddRateLimited ingressQueue (StringItem key);
                      QueueDone ingressQueue (StringItem key);
                      HandleError err]
       | None => [QueueForget ingressQueue (StringItem key);
                  QueueDone ingressQueue (StringItem key)]
       end /\
  countEvents isForget (calls r) = match value rh with Some _ => 0 | None => 1 end%nat /\
  countEvents isAddRateLimited (calls r) = match value rh with Some _ => 1 | None => 0 end%nat /\
  items (Ingress_queue (after r)) = rest /\
  delayed (Ingress_queue (after r)) =
    delayed (Ingress_queue w) ++ match value rh with Some _ => [StringItem key] | None => [] end.
Proof.
  intros Hitems. cbv zeta.
  rewrite (processNextIngress_key w key rest Hitems). cbv zeta.
  rewrite value_run, after_run, calls_run.
  destruct (handleIngress_frame key (dequeued ingressQueue w))
    as (_ & _ & _ & _ & _ & HIngress & _ & _ & HnoQueue).
  destruct (no_queue_calls _ HnoQueue) as (HnoForget & HnoAdd & _).
  set (rh := handleIngress key (dequeued ingressQueue w)) in *.
  assert (Hq : Ingress_queue (after rh) =
               {| items := rest; shuttingDown := shuttingDown (Ingress_queue w);
                  delayed := delayed (Ingress_queue w) |}).
  { rewrite HIngress. unfold dequeued. simpl. by rewrite Hitems. }
  repeat apply conj; try done.
  - count_events. rewrite HnoForget. by destruct (value rh).
  - count_events. rewrite HnoAdd. by destruct (value rh).
  - destruct (value rh); simpl; by rewrite Hq.
  - destruct (value rh); simpl; rewrite Hq; simpl; by rewrite ?app_nil_r.
Qed.

Lemma runWorker_S (fuel : nat) (w : World) :
  runWorker (S fuel) w =
  bind processNext
    (fun next => match next with
                 | None => ret blocked
                 | Some true => runWorker fuel
                 | Some false => ret returned
                 end) w.
Proof. reflexivity. Qed.

Lemma runIngressWorker_S (fuel : nat) (w : World) :
  runIngressWorker (S fuel) w =
  bind processNextIngress
    (fun next => match next with
                 | None => ret blocked
                 | Some true => runIngressWorker fuel
                 | Some false => ret returned
                 end) w.
Proof. reflexivity. Qed.

(** X17: given more iterations than items wait, the loop of the Mcert
    worker takes every waiting item once, in order, calls [Done] for each
    and leaves the queue empty; then it returns if the queue is shutting
    down and blocks in [Get] if it is not. *)
Theorem runWorker_drains (fuel : nat) (w : World) :
  (length (items (Mcert_queue w)) < fuel)%nat ->
  let r := runWorker fuel w in
  value r = (if shuttingDown (Mcert_queue w) then returned else blocked) /\
  items (Mcert_queue (after r)) = [] /\
  omap doneItem (calls r) = items (Mcert_queue w).
Proof.
  remember (items (Mcert_queue w)) as waiting eqn:Hitems.
  revert w fuel Hitems.
  induction waiting as [|obj rest IH]; intros w fuel Hitems Hfuel;
    (destruct fuel as [|fuel]; [simpl in Hfuel; lia|]);
    symmetry in Hitems; cbv zeta; rewrite runWorker_S;
    rewrite bind_value, bind_after, bind_calls.
  - rewrite (processNext_empty w Hitems).
    destruct (shuttingDown (Mcert_queue w));
      rewrite value_run, after_run, calls_run; done.
  - destruct (processNext_step w obj rest Hitems)
      as (Hvalue & Hrest & Hshut & Hdone & _).
    rewrite Hvalue. cbv iota.
    destruct (IH (after (processNext w)) fuel) as (IHv & IHi & IHd);
      [done|simpl in Hfuel; lia|].
    by rewrite IHv, IHi, omap_app, IHd, Hdone, Hshut.
Qed.

(** X18: given more iterations than items wait, the loop of the Ingress
    worker takes every waiting item once, in order, calls [Done] for each
    and leaves the queue empty; then it returns if the queue is shutting
    down and blocks in [Get] if it is not.  The Identity Store, the
    provider, the cluster and the lister's cache are as they were. *)
Theorem runIngressWorker_drains (fuel : nat) (w : World) :
  (length (items (Ingress_queue w)) < fuel)%nat ->
  let r := runIngressWorker fuel w in
  value r = (if shuttingDown (Ingress_queue w) then returned else blocked) /\
  items (Ingress_queue (after r)) = [] /\
  omap doneItem (calls r) = items (Ingress_queue w) /\
  state (after r) = state w /\
  sslClient (after r) = sslClient w /\
  client (after r) = client w /\
  lister (after r) = lister w.
Proof.
  remember (items (Ingress_queue w)) as waiting eqn:Hitems.
  revert w fuel Hitems.
  induction waiting as [|obj rest IH]; intros w fuel Hitems Hfuel;
    (destruct fuel as [|fuel]; [simpl in Hfuel; lia|]);
    symmetry in Hitems; cbv zeta; rewrite runIngressWorker_S;
    rewrite bind_value, bind_after, bind_calls.
  - rewrite (processNextIngress_empty w Hitems).
    destruct (shuttingDown (Ingress_queue w));
      rewrite value_run, after_run, calls_run; done.
  - destruct (processNextIngress_step w obj rest Hitems)
      as (Hvalue & Hrest & Hshut & Hdone & Hst & Hssl & Hcl & Hli).
    rewrite Hvalue. cbv iota.
    destruct (IH (after (processNextIngress w)) fuel)
      as (IHv & IHi & IHd & IHst & IHssl & IHcl & IHli);
      [done|simpl in Hfuel; lia|].
    by rewrite IHv, IHi, omap_app, IHd, Hdone, Hshut, IHst, IHssl, IHcl, IHli.
Qed.

(** X8: an entry of the Identity Store with a non-empty provider name
    is never removed and never replaced: not by a reconciliation of any
    key, and not by any number of iterations of the Mcert worker. *)
Theorem Identity_Store_entries_stable (other sslCertificateName : string)
    (w : World) :
  state w !! other = Some sslCertificateName ->
  sslCertificateName <> "" ->
  (forall key,
     state (after (handleMcert key w)) !! other = Some sslCertificateName) /\
  (forall fuel,
     state (after (runWorker fuel w)) !! other = Some sslCertificateName).
Proof.
  intros Hother Hne. split.
  - intros key. by apply handleMcert_keeps_mappings.
  - intros fuel. revert w Hother.
    induction fuel as [|fuel IH]; intros w Hother; [done|].
    rewrite runWorker_S, bind_after.
    destruct (items (Mcert_queue w)) as [|obj rest] eqn:Hitems.
    + rewrite (processNext_empty w Hitems).
      by destruct (shuttingDown (Mcert_queue w)).
    + destruct (processNext_step w obj rest Hitems) as (-> & _ & _ & _ & Hkeeps).
      cbv iota. apply IH. by apply Hkeeps.
Qed.

(** ** More on annotations and the Ingress reconciliation *)

Lemma Split_comma_length (s : string) :
  length (strings_Split s splitBy) = S (countByte "," s).
Proof.
  induction s as [|c s IH]; [done|].
  destruct (ascii_dec c ",") as [->|Hc].
  - rewrite Split_comma_sep. cbn [length countByte]. rewrite IH. reflexivity.
  - rewrite Split_comma_other by done. cbn [countByte].
    destruct (Ascii.eqb_spec c ","); [done|].
    destruct (strings_Split s splitBy) as [|seg segs] eqn:Hs.
    + exfalso. revert Hs. apply genSplit_not_nil.
    + cbn [length] in *. by rewrite IH.
Qed.

Lemma Split_comma_pieces (s : string) :
  Forall (fun piece => countByte "," piece = 0%nat) (strings_Split s splitBy).
Proof.
  induction s as [|c s IH]; [by repeat constructor|].
  destruct (ascii_dec c ",") as [->|Hc].
  - rewrite Split_comma_sep. by constructor.
  - rewrite Split_comma_other by done.
    destruct (strings_Split s splitBy) as [|seg segs] eqn:Hs.
    + exfalso. revert Hs. apply genSplit_not_nil.
    + inversion IH as [|? ? Hseg Hsegs]; subst. constructor; [|done].
      cbn [countByte]. rewrite Hseg. by destruct (Ascii.eqb_spec c ",").
Qed.

(** X19: [parseAnnotation] cuts the annotation value at every separator
    and nowhere else: joining the pieces with the separator gives the
    value back, no piece contains the separator, and a value that is not
    empty has one piece more than it has separators; the empty value has
    no piece. *)
Theorem parseAnnotation_pieces (annotationValue : string) :
  String.concat splitBy (range (parseAnnotation annotationValue))
    = annotationValue /\
  length (range (parseAnnotation annotationValue)) =
    (if String.eqb annotationValue "" then 0
     else S (countByte "," annotationValue)) /\
  (forall piece,
     piece ∈ range (parseAnnotation annotationValue) ->
     countByte "," piece = 0%nat).
Proof.
  unfold parseAnnotation.
  destruct (String.eqb_spec annotationValue "") as [->|Hne]; simpl.
  - repeat split. intros piece Hin. by apply elem_of_nil in Hin.
  - repeat apply conj.
    + apply Split_comma_concat.
    + apply Split_comma_length.
    + apply Forall_forall, Split_comma_pieces.
Qed.

(** X20: [handleIngress] has nothing to enqueue, and calls neither the
    lister nor the Mcert controller, where the key has more than two
    parts or the Ingress cannot be fetched (it returns the error), and
    where the Ingress has no annotation or an empty one (it returns
    success).  The world is as it was. *)
Theorem handleIngress_nothing_to_enqueue (key : string) (w : World) :
  (forall err,
     SplitMetaNamespaceKey key = Err err ->
     handleIngress key w = (Some err, w, [])) /\
  (forall ns name err,
     SplitMetaNamespaceKey key = Ok (ns, name) ->
     Ingress_client_Get (client w) ns name = Err err ->
     handleIngress key w = (Some err, w, [IngressGet ns name])) /\
  (forall ns name ing,
     SplitMetaNamespaceKey key = Ok (ns, name) ->
     Ingress_client_Get (client w) ns name = Ok ing ->
     Annotations ing !! annotation = None \/
     Annotations ing !! annotation = Some "" ->
     handleIngress key w = (None, w, [IngressGet ns name])).
Proof.
  repeat apply conj.
  - intros err Hsplit. unfold handleIngress. by rewrite Hsplit.
  - intros ns name err Hsplit Hget. unfold handleIngress. rewrite Hsplit.
    unfold bind, Ingress_Get, ret. by rewrite Hget.
  - intros ns name ing Hsplit Hget Hann. unfold handleIngress. rewrite Hsplit.
    unfold bind, Ingress_Get, ret. rewrite Hget.
    by destruct Hann as [-> | ->].
Qed.

(** X21: for an Ingress with the annotation, [handleIngress] hands to
    the Mcert controller exactly the objects the lister has for the names
    of the annotation, one call for each occurrence of a resolved name,
    in the order of the annotation.  It makes no queue call of its own
    and leaves the Identity Store, the provider, the cluster, the
    lister's cache and the Ingress queue as they are. *)
Theorem handleIngress_enqueues_resolved (key ns name : string) (ing : Ingress)
    (annotationValue : string) (w : World) :
  SplitMetaNamespaceKey key = Ok (ns, name) ->
  Ingress_client_Get (client w) ns name = Ok ing ->
  Annotations ing !! annotation = Some annotationValue ->
  let r := handleIngress key w in
  omap enqueued (calls r) =
    omap (fun mcertName => cache_find ns mcertName (lister w))
         (range (parseAnnotation annotationValue)) /\
  countEvents isQueueCall (calls r) = 0%nat /\
  state (after r) = state w /\
  sslClient (after r) = sslClient w /\
  client (after r) = client w /\
  lister (after r) = lister w /\
  Ingress_queue (after r) = Ingress_queue w.
Proof.
  intros Hsplit Hget Hann.
  destruct (handleIngress_annotated key ns name ing annotationValue w
              Hsplit Hget Hann) as (_ & Hafter & Hcalls).
  destruct (handleIngress_names_frame ns
              (range (parseAnnotation annotationValue)) w)
    as (F1 & F2 & F3 & F4 & F5 & F6 & _ & _ & F9 & F10).
  cbv zeta in *. rewrite Hafter, Hcalls.
  repeat apply conj; done.
Qed.

(** X6: the per-domain translation loses nothing: two statuses with the
    same translation are the same status.  The overall translation loses
    one distinction only: two different statuses with the same
    translation are the unspecified and the empty status, both translated
    to the empty string. *)
Theorem translations_injective (status1 status2 translated : string) :
  (translateDomainStatus status1 = Ok translated ->
   translateDomainStatus status2 = Ok translated ->
   status1 = status2) /\
  (translateCertificateStatus status1 = Some translated ->
   translateCertificateStatus status2 = Some translated ->
   status1 = status2 \/ translated = "").
Proof.
  split.
  - unfold translateDomainStatus.
    repeat match goal with
    | |- context [String.eqb ?s ?c] =>
        destruct (String.eqb_spec s c) as [->|_]
    end; intros Heq1 Heq2; simplify_eq; done.
  - unfold translateCertificateStatus.
    repeat match goal with
    | |- context [String.eqb ?s ?c] =>
        destruct (String.eqb_spec s c) as [->|_]
    end; simpl; intros Heq1 Heq2; simplify_eq; auto.
Qed.

Lemma translateDomainStatus_Ok_known (status translatedStatus : string) :
  translateDomainStatus status = Ok translatedStatus ->
  status ∈ domainStatusCodes.
Proof.
  intros Hok. destruct (decide (status ∈ domainStatusCodes)) as [|Hnot]; [done|].
  by rewrite (translateDomainStatus_unknown status Hnot) in Hok.
Qed.

(** What a loop that succeeds has visited and what it returns. *)
Lemma translateDomainStatuses_Ok (acc domainStatus : slice DomainStatus)
    (entries : list (string * string)) :
  translateDomainStatuses acc entries = Ok domainStatus ->
  Forall (fun entry => entry.2 ∈ domainStatusCodes) entries /\
  range domainStatus = range acc ++ (translatedEntry <$> entries).
Proof.
  revert acc. induction entries as [|[domain status] entries IH]; intros acc; simpl.
  - intros [= <-]. split; [constructor|]. by rewrite app_nil_r.
  - destruct (translateDomainStatus status) as [translatedStatus|err] eqn:Hstatus;
      [|done].
    intros Hrest. destruct (IH _ Hrest) as [Hall Hrange]. split.
    + constructor; [|done]. simpl. by eapply translateDomainStatus_Ok_known.
    + rewrite Hrange. unfold translatedEntry at 2. simpl. rewrite Hstatus.
      destruct acc; simpl; [done|]. by rewrite <- app_assoc.
Qed.

(** The run of [updateStatus] that reaches [Update]. *)
Lemma updateStatus_run (mcert : ManagedCertificate) (w : World)
    (sslCertificateName : string) (sslCert : SslCertificate)
    (certificateStatus : string) (domainStatus : slice DomainStatus) :
  state w !! Name mcert = Some sslCertificateName ->
  sslClient_Get (sslClient w) sslCertificateName = Ok sslCert ->
  translateCertificateStatus (Managed_Status (Managed sslCert))
    = Some certificateStatus ->
  translateDomainStatuses nil_slice (Managed_DomainStatus (Managed sslCert))
    = Ok domainStatus ->
  let written :=
    set_CertificateName (SslCertificate_Name sslCert)
      (set_DomainStatus domainStatus
         (set_CertificateStatus certificateStatus mcert)) in
  (value (updateStatus mcert w)).1 = written /\
  calls (updateStatus mcert w) =
    [StateGet (Name mcert); SslGet sslCertificateName;
     McertUpdate (Namespace mcert) written].
Proof.
  intros Hstate Hget Hstatus Hdomains.
  run_calls. rewrite Hstate. simpl. rewrite Hget, Hstatus, Hdomains. simpl.
  by_cases.
Qed.

Lemma updateStatus_reached_Update (mcert : ManagedCertificate) (w : World) :
  countEvents isMcertUpdate (calls (updateStatus mcert w)) = 1%nat ->
  exists sslCertificateName sslCert certificateStatus domainStatus,
    state w !! Name mcert = Some sslCertificateName /\
    sslClient_Get (sslClient w) sslCertificateName = Ok sslCert /\
    translateCertificateStatus (Managed_Status (Managed sslCert))
      = Some certificateStatus /\
    translateDomainStatuses nil_slice (Managed_DomainStatus (Managed sslCert))
      = Ok domainStatus.
Proof.
  run_calls. by_cases; intros; simplify_eq; eauto 10.
Qed.

(** X22: that nothing has changed does not keep [updateStatus] from
    calling [Update].  After a status refresh that reached [Update], a
    second refresh of the object, with the name mapped as before and the
    provider returning the certificate with the same name, the same
    overall status and the same per-domain statuses, visited in whatever
    order, calls [Update] again.  The object it sends has the identity,
    the certificate name and the overall status the first refresh left,
    and the same per-domain statuses up to their order; where the order
    of the visit is the same, it is the very same object. *)
Theorem updateStatus_repeats_Update (mcert : ManagedCertificate) (w w' : World)
    (sslCertificateName : string) (sslCert sslCert' : SslCertificate) :
  state w !! Name mcert = Some sslCertificateName ->
  state w' !! Name mcert = Some sslCertificateName ->
  sslClient_Get (sslClient w) sslCertificateName = Ok sslCert ->
  sslClient_Get (sslClient w') sslCertificateName = Ok sslCert' ->
  SslCertificate_Name sslCert' = SslCertificate_Name sslCert ->
  Managed_Status (Managed sslCert') = Managed_Status (Managed sslCert) ->
  Managed_DomainStatus (Managed sslCert')
    ≡ₚ Managed_DomainStatus (Managed sslCert) ->
  let r := updateStatus mcert w in
  let r' := updateStatus (value r).1 w' in
  countEvents isMcertUpdate (calls r) = 1%nat ->
  calls r' = [StateGet (Name mcert); SslGet sslCertificateName;
              McertUpdate (Namespace mcert) (value r').1] /\
  identityAndSpec (value r').1 = identityAndSpec (value r).1 /\
  CertificateName (mcert_Status (value r').1)
    = CertificateName (mcert_Status (value r).1) /\
  CertificateStatus (mcert_Status (value r').1)
    = CertificateStatus (mcert_Status (value r).1) /\
  range (Status_DomainStatus (mcert_Status (value r').1))
    ≡ₚ range (Status_DomainStatus (mcert_Status (value r).1)) /\
  (Managed_DomainStatus (Managed sslCert')
     = Managed_DomainStatus (Managed sslCert) ->
   (value r').1 = (value r).1).
Proof.
  intros Hstate Hstate' Hget Hget' Hname Hstatus Hperm. cbv zeta.
  intros Hreached.
  destruct (updateStatus_reached_Update mcert w Hreached)
    as (mapped & found & certificateStatus & domainStatus
        & Hmapped & Hfound & Hcert & Hdomains).
  rewrite Hstate in Hmapped. injection Hmapped as <-.
  rewrite Hget in Hfound. injection Hfound as <-.
  destruct (updateStatus_run mcert w _ _ _ _ Hstate Hget Hcert Hdomains)
    as [Hwritten _].
  cbv zeta in Hwritten. rewrite Hwritten.
  destruct (translateDomainStatuses_Ok _ _ _ Hdomains) as [Hall Hrange].
  assert (Hall' : Forall (fun entry => entry.2 ∈ domainStatusCodes)
                    (Managed_DomainStatus (Managed sslCert')))
    by (by rewrite Hperm).
  destruct (translateDomainStatuses_recognised nil_slice _ Hall')
    as (translated' & Hdomains' & _).
  destruct (translateDomainStatuses_Ok _ _ _ Hdomains') as [_ Hrange'].
  set (written :=
         set_CertificateName (SslCertificate_Name sslCert)
           (set_DomainStatus domainStatus
              (set_CertificateStatus certificateStatus mcert))) in *.
  assert (Hcert' : translateCertificateStatus (Managed_Status (Managed sslCert'))
                   = Some certificateStatus) by (by rewrite Hstatus).
  destruct (updateStatus_run written w' sslCertificateName sslCert'
              certificateStatus (fold_left append translated' nil_slice))
    as [Hwritten' Hcalls']; try done.
  cbv zeta in Hwritten', Hcalls'.
  repeat apply conj.
  - rewrite Hcalls', Hwritten'. reflexivity.
  - rewrite Hwritten'. reflexivity.
  - rewrite Hwritten'. simpl. exact Hname.
  - rewrite Hwritten'. reflexivity.
  - rewrite Hwritten'. simpl. rewrite Hrange', Hrange. simpl.
    by rewrite Hperm.
  - intros Hsame. rewrite Hwritten'. rewrite Hsame, Hdomains in Hdomains'.
    injection Hdomains' as <-. unfold written. simpl. by rewrite Hname.
Qed.

End Properties.

(** * Runs against the fake provider and cluster *)

Lemma updateStatus_unexpected_status_witness :
  let mcert := newManagedCertificate "ns" "foo" ["example.com"] in
  let w := issued "unexpected" [] in
  let r := updateStatus mcert w in
  value r = (mcert,
             Some (ErrUnexpectedStatus "unexpected"
                     (issuedCertificate "unexpected" []))) /\
  after r = w /\
  countEvents isMcertUpdate (calls r) = 0%nat.
Proof.
  apply (updateStatus_unexpected_status
           (newManagedCertificate "ns" "foo" ["example.com"])
           (issued "unexpected" []) "g1" (issuedCertificate "unexpected" [])).
  - reflexivity.
  - reflexivity.
  - compute_done.
Defined.

(** C4 at a provider resource that is [ACTIVE] and has no per-domain
    status: the status written onto the ManagedCertificate, and sent
    with [Update], has the [nil] slice for [domainStatus], which is not
    the empty list. *)
Theorem updateStatus_no_domains_nil :
  let r := updateStatus (newManagedCertificate "ns" "foo" ["example.com"])
             (issued "ACTIVE" []) in
  (value r).2 = None /\
  mcert_Status (value r).1 =
    {| CertificateName := "g1"; CertificateStatus := "Active";
       Status_DomainStatus := nil_slice; ExpireTime := "" |} /\
  updated (client (after r)) = [(value r).1] /\
  Status_DomainStatus (mcert_Status (value r).1) <> slice_of [].
Proof. vm_compute. repeat split; discriminate. Qed.

(** The first candidate collides, and so would the replacement: it is
    returned without a probe. *)
Lemma randomName_bounded_retry_witness :
  sslClient_Get (sslClient crowded) "g2" = Ok (newSslCertificate "g2") /\
  value (randomName crowded) = Ok "g2" /\
  calls (randomName crowded) =
    [RandomName (Ok "g1"); SslGet "g1"; RandomName (Ok "g2")].
Proof.
  split; [reflexivity|].
  destruct (randomName_bounded_retry crowded) as (_ & _ & Hcollide & _).
  apply (Hcollide "g1" (newSslCertificate "g1")); reflexivity.
Defined.

Lemma handleMcert_Put_before_Create_witness :
  let r := handleMcert "ns/foo" scenario in
  countEvents isStatePut (calls r) = 1%nat /\
  exists before later,
    calls r = before ++ StatePut "foo" "g1" :: later /\
    countEvents isStatePut before = 0%nat /\
    countEvents isSslCreate before = 0%nat /\
    countEvents isStatePut later = 0%nat.
Proof.
  exact (handleMcert_Put_before_Create "ns/foo" "ns" "foo"
           (newManagedCertificate "ns" "foo" ["example.com"]) scenario
           eq_refl eq_refl (or_introl eq_refl)).
Defined.

(** C2, as the claim words it, fails where name generation fails: the
    Identity Store has no entry for [foo], and the reconciliation makes
    no [Put] at all. *)
Lemma handleMcert_no_Put_without_name :
  let r := handleMcert "ns/foo" noRandomness in
  state noRandomness !! "foo" = None /\
  value r = Some (CollaboratorError "rand: read failed") /\
  calls r = [ListerGet "ns" "foo"; StateGet "foo";
             RandomName (Err (CollaboratorError "rand: read failed"))] /\
  countEvents isStatePut (calls r) <> 1%nat.
Proof. vm_compute. repeat split; discriminate. Qed.

Lemma FakeProvider_CreateThenGet : CreateThenGet FakeProvider.
Proof.
  intros p p' name domains. simpl.
  destruct (certificates p !! name); [done|].
  case_bool_decide; [|done].
  intros [= <-]. simpl. rewrite lookup_insert_eq. eauto.
Defined.



Lemma handleIngress_partial_failure_witness :
  let r := handleIngress "ns/ing" (annotated "a,b") in
  cache_find "ns" "b" (lister (annotated "a,b")) = None /\
  value r = None /\
  McertEnqueue (newManagedCertificate "ns" "a" ["a.example.com"]) ∈ calls r /\
  StringItem "ns/a" ∈ items (Mcert_queue (after r)) /\
  HandleError (CollaboratorError "managedcertificate not found") ∈ calls r.
Proof.
  destruct (handleIngress_partial_failure "ns/ing" "ns" "ing"
              {| Ingress_Namespace := "ns"; Ingress_Name := "ing";
                 Annotations := {[annotation := "a,b"]} |}
              "a,b" (annotated "a,b"))
    as (Hvalue & Henqueued & Hlogged);
    [reflexivity|reflexivity|by vm_compute|].
  destruct (Henqueued "a" (newManagedCertificate "ns" "a" ["a.example.com"]))
    as [Hcall Hitem]; [compute_done|reflexivity|].
  split; [reflexivity|]. split; [exact Hvalue|].
  split; [exact Hcall|]. split; [exact Hitem|].
  apply (Hlogged "b"); [compute_done|reflexivity].
Defined.

(** A name that is not resolved does not keep a later one from being
    enqueued either. *)
Example handleIngress_b_a :
  let r := handleIngress "ns/ing" (annotated "b,a") in
  value r = None /\
  items (Mcert_queue (after r)) = [StringItem "ns/a"].
Proof. by vm_compute. Qed.

Lemma parseAnnotation_keeps_empty_names_witness :
  parseAnnotation "a,,,b" = slice_of ["a"; ""; ""; "b"] /\
  String.concat splitBy (range (parseAnnotation "a,,,b")) = "a,,,b" /\
  "" ∈ range (parseAnnotation "a,,,b") /\
  ListerGet "ns" "" ∈ calls (handleIngress "ns/ing" (annotated "a,,,b")) /\
  omap listerLookup (calls (handleIngress "ns/ing" (annotated "a,,,b"))) =
    [("ns", "a"); ("ns", ""); ("ns", ""); ("ns", "b")] /\
  length (filter (fun lookup => lookup = ("ns", ""))
            (omap listerLookup
               (calls (handleIngress "ns/ing" (annotated "a,,,b"))))) = 2%nat /\
  (0 < 2)%nat.
Proof.
  split; [reflexivity|].
  apply (parseAnnotation_keeps_empty_names "ns/ing" "ns" "ing"
           {| Ingress_Namespace := "ns"; Ingress_Name := "ing";
              Annotations := {[annotation := "a,,,b"]} |}
           "a,,,b" (annotated "a,,,b")).
  - reflexivity.
  - reflexivity.
  - by vm_compute.
  - right. right. by exists "a", ",b".
Defined.

Example parseAnnotation_trailing : parseAnnotation "a," = slice_of ["a"; ""].
Proof. reflexivity. Qed.

Example parseAnnotation_doubled :
  parseAnnotation "a,,b" = slice_of ["a"; ""; "b"].
Proof. reflexivity. Qed.

(** C7 at an item that is not a string.  In the Ingress queue it is
    forgotten and the worker is done with it.  In the Mcert queue it is
    forgotten and then reconciled all the same, under the empty key; the
    reconciliation fails, and the item is added to the queue again with
    a delay. *)
Theorem processNext_stray_item_requeued :
  let ri := processNextIngress strayIngressItem in
  let rm := processNext strayMcertItem in
  calls ri = [QueueGet ingressQueue; QueueForget ingressQueue notAString;
              QueueDone ingressQueue notAString;
              HandleError (ErrExpectedString "ingressQueue" notAString)] /\
  countEvents isAddRateLimited (calls ri) = 0%nat /\
  delayed (Ingress_queue (after ri)) = [] /\
  calls rm = [QueueGet mcertQueue; QueueForget mcertQueue notAString;
              HandleError (ErrExpectedString "mcertQueue" notAString);
              ListerGet "" "";
              QueueAddRateLimited mcertQueue notAString;
              HandleError (CollaboratorError "managedcertificate not found");
              QueueForget mcertQueue notAString;
              QueueDone mcertQueue notAString] /\
  countEvents isAddRateLimited (calls rm) = 1%nat /\
  delayed (Mcert_queue (after rm)) = [notAString].
Proof. by vm_compute. Qed.

Lemma Identity_Store_keyed_by_name_witness :
  let r1 := handleMcert "ns1/foo" twoNamespaces in
  let r2 := handleMcert "ns2/foo" (after r1) in
  (forall ev k, ev ∈ calls r1 ++ calls r2 -> stateKey ev = Some k -> k = "foo") /\
  state (after r2) = state (after r1) /\
  countEvents isStatePut (calls r2) = 0%nat /\
  countEvents isRandomName (calls r2) = 0%nat /\
  countEvents isSslCreate (calls r2) = 0%nat /\
  exists sslCertificateName,
    state (after r2) !! "foo" = Some sslCertificateName /\
    forall ev n, ev ∈ calls r2 -> sslName ev = Some n -> n = sslCertificateName.
Proof.
  destruct (Identity_Store_keyed_by_name (P := FakeProvider) (K := FakeCluster)
              "ns1/foo" "ns2/foo" "ns1" "ns2" "foo" eq_refl eq_refl)
    as (_ & Hkeys & Hshared).
  split; [apply Hkeys|].
  apply (Hshared (newManagedCertificate "ns1" "foo" ["one.example.com"])
           (newManagedCertificate "ns2" "foo" ["two.example.com"])
           twoNamespaces FakeProvider_CreateThenGet).
  - simpl. rewrite !elem_of_cons, elem_of_nil. intros [?|[?|[]]]; discriminate.
  - reflexivity.
  - reflexivity.
  - reflexivity.
  - reflexivity.
Defined.

(** Both objects end up with the one provider certificate [g1]: the
    domains of the second are never sent to the provider. *)
Example twoNamespaces_one_certificate :
  let r1 := handleMcert "ns1/foo" twoNamespaces in
  let r2 := handleMcert "ns2/foo" (after r1) in
  state (after r2) = {["foo" := "g1"]} /\
  CertificateName <$> (mcert_Status <$> lister (after r2)) = ["g1"; "g1"] /\
  filter (fun ev => isSslCreate ev = true) (calls r1 ++ calls r2) =
    [SslCreate "g1" ["one.example.com"] None].
Proof. by vm_compute. Qed.

(** * More runs against the fake provider and cluster *)

Lemma translateDomainStatuses_all_or_first_error_witness :
  (exists translated,
     translateDomainStatuses nil_slice
       [("a.example.com", "ACTIVE"); ("b.example.com", "PROVISIONING")]
     = Ok (slice_of translated) /\
     Forall2 (fun entry t =>
                Domain t = entry.1 /\
                translateDomainStatus entry.2 = Ok (Status t))
             [("a.example.com", "ACTIVE"); ("b.example.com", "PROVISIONING")]
             translated) /\
  translateDomainStatuses nil_slice
    ([("a.example.com", "ACTIVE")] ++ ("b.example.com", "bad_status")
       :: [("c.example.com", "worse_status")])
  = Err (ErrUnexpectedDomainStatus "bad_status").
Proof.
  destruct translateDomainStatuses_all_or_first_error as [Hall Hfirst].
  split.
  - apply Hall; [done|]. repeat constructor; compute_done.
  - apply (Hfirst [("a.example.com", "ACTIVE")] [("c.example.com", "worse_status")]
             ("b.example.com", "bad_status")).
    + repeat constructor; compute_done.
    + compute_done.
Defined.

Lemma updateStatus_writes_status_witness :
  let r := updateStatus (newManagedCertificate "ns" "foo" ["example.com"])
             (issued "ACTIVE" [("example.com", "ACTIVE")]) in
  mcert_Status (value r).1 =
    {| CertificateName := "g1"; CertificateStatus := "Active";
       Status_DomainStatus :=
         slice_of [{| Domain := "example.com"; Status := "Active" |}];
       ExpireTime := "" |} /\
  (value r).2 = None.
Proof.
  destruct (updateStatus_writes_status
              (newManagedCertificate "ns" "foo" ["example.com"])
              (issued "ACTIVE" [("example.com", "ACTIVE")]) "g1"
              (issuedCertificate "ACTIVE" [("example.com", "ACTIVE")])
              "Active"
              (slice_of [{| Domain := "example.com"; Status := "Active" |}]))
    as (Hstatus & _ & _ & _ & _ & Herr & _); try reflexivity.
  split; [exact Hstatus|]. rewrite Herr. reflexivity.
Defined.

Lemma updateStatus_partial_assignment_witness :
  let r := updateStatus (newManagedCertificate "ns" "foo" ["example.com"])
             (issued "ACTIVE" [("example.com", "bad_status")]) in
  (value r).2 = Some (ErrUnexpectedDomainStatus "bad_status") /\
  mcert_Status (value r).1 =
    {| CertificateName := ""; CertificateStatus := "Active";
       Status_DomainStatus := nil_slice; ExpireTime := "" |} /\
  countEvents isMcertUpdate (calls r) = 0%nat /\
  after r = issued "ACTIVE" [("example.com", "bad_status")].
Proof.
  apply (updateStatus_partial_assignment
           (newManagedCertificate "ns" "foo" ["example.com"])
           (issued "ACTIVE" [("example.com", "bad_status")]) "g1"
           (issuedCertificate "ACTIVE" [("example.com", "bad_status")])
           "Active" (ErrUnexpectedDomainStatus "bad_status"));
    reflexivity.
Defined.

Lemma updateStatus_fails_early_witness :
  (let r := updateStatus (newManagedCertificate "ns" "foo" ["example.com"])
              scenario in
   value r = (newManagedCertificate "ns" "foo" ["example.com"],
              Some (ErrNotInState "foo")) /\
   calls r = [StateGet "foo"] /\ after r = scenario) /\
  (let r := updateStatus (newManagedCertificate "ns" "foo" ["example.com"])
              (with_state {["foo" := "g9"]} scenario) in
   value r = (newManagedCertificate "ns" "foo" ["example.com"],
              Some (CollaboratorError "sslcertificate not found")) /\
   calls r = [StateGet "foo"; SslGet "g9"] /\
   after r = with_state {["foo" := "g9"]} scenario).
Proof.
  split.
  - apply (updateStatus_fails_early
             (newManagedCertificate "ns" "foo" ["example.com"]) scenario).
    reflexivity.
  - apply (updateStatus_fails_early
             (newManagedCertificate "ns" "foo" ["example.com"])
             (with_state {["foo" := "g9"]} scenario)); reflexivity.
Defined.

Lemma handleMcert_cache_ahead_of_cluster_witness :
  let r := handleMcert "ns/foo" (refusedUpdate "ACTIVE" []) in
  exists written,
    cache_find "ns" "foo" (lister (after r)) = Some written /\
    mcert_Status written =
      {| CertificateName := "g1"; CertificateStatus := "Active";
         Status_DomainStatus := nil_slice; ExpireTime := "" |} /\
    value r = Some (CollaboratorError "conflict").
Proof.
  destruct (handleMcert_cache_ahead_of_cluster "ns/foo" "ns" "foo"
              (newManagedCertificate "ns" "foo" ["example.com"])
              (refusedUpdate "ACTIVE" []) "g1" (issuedCertificate "ACTIVE" [])
              "Active" nil_slice)
    as (written & Hcached & Hstatus & Hvalue);
    [reflexivity|reflexivity|reflexivity|discriminate
    |reflexivity|reflexivity|reflexivity|].
  exists written. split; [exact Hcached|]. split; [exact Hstatus|].
  rewrite Hvalue. reflexivity.
Defined.

Lemma translations_injective_witness :
  "ACTIVE" = "ACTIVE" /\
  ("MANAGED_CERTIFICATE_STATUS_UNSPECIFIED" = "" \/ "" = "").
Proof.
  split.
  - apply (proj1 (translations_injective "ACTIVE" "ACTIVE" "Active"));
      reflexivity.
  - apply (proj2 (translations_injective
                    "MANAGED_CERTIFICATE_STATUS_UNSPECIFIED" "" ""));
      reflexivity.
Defined.

Lemma createSslCertificateNameIfNeeded_records_witness :
  let r := createSslCertificateNameIfNeeded "foo" scenario in
  state (after r) !! "foo" = Some "g1" /\
  createSslCertificateNameIfNeeded "foo" (after r) =
    (Ok "g1", after r, [StateGet "foo"]).
Proof.
  destruct (createSslCertificateNameIfNeeded_records "foo" scenario)
    as (Hnamed & _).
  destruct (Hnamed "g1" eq_refl) as [Hmapped Hagain].
  split; [exact Hmapped|]. apply Hagain. discriminate.
Defined.

Lemma Identity_Store_entries_stable_witness :
  (forall key,
     state (after (handleMcert key (issued "ACTIVE" []))) !! "foo" = Some "g1") /\
  (forall fuel,
     state (after (runWorker fuel (issued "ACTIVE" []))) !! "foo" = Some "g1").
Proof.
  apply (Identity_Store_entries_stable "foo" "g1" (issued "ACTIVE" []));
    [reflexivity|discriminate].
Defined.

Lemma handleMcert_without_object_witness :
  (let r := handleMcert "a/b/c" scenario in
   value r = Some (ErrUnexpectedKeyFormat "a/b/c") /\
   calls r = [] /\ after r = scenario) /\
  (let r := handleMcert "ns/bar" scenario in
   value r = Some (CollaboratorError "managedcertificate not found") /\
   calls r = [ListerGet "ns" "bar"] /\ after r = scenario).
Proof.
  split.
  - apply (handleMcert_without_object "a/b/c" scenario). reflexivity.
  - apply (handleMcert_without_object "ns/bar" scenario); reflexivity.
Defined.

Lemma handleMcert_success_witness :
  let r := handleMcert "ns/foo" scenario in
  exists sslCertificateName sslCert written,
    state (after r) !! "foo" = Some sslCertificateName /\
    sslClient_Get (sslClient (after r)) sslCertificateName = Ok sslCert /\
    cache_find "ns" "foo" (lister (after r)) = Some written /\
    CertificateName (mcert_Status written) = SslCertificate_Name sslCert /\
    translateCertificateStatus (Managed_Status (Managed sslCert))
      = Some (CertificateStatus (mcert_Status written)) /\
    translateDomainStatuses nil_slice (Managed_DomainStatus (Managed sslCert))
      = Ok (Status_DomainStatus (mcert_Status written)) /\
    last (calls r) = Some (McertUpdate "ns" written).
Proof.
  apply (handleMcert_success "ns/foo" "ns" "foo" scenario); reflexivity.
Defined.

Lemma handleMcert_adopts_after_two_collisions_witness :
  let r := handleMcert "ns/foo" crowded in
  state (after r) !! "foo" = Some "g2" /\
  countEvents isSslCreate (calls r) = 0%nat /\
  sslClient (after r) = sslClient crowded /\
  (value r = None ->
   exists written,
     cache_find "ns" "foo" (lister (after r)) = Some written /\
     CertificateName (mcert_Status written) = "g2" /\
     translateCertificateStatus "PROVISIONING"
       = Some (CertificateStatus (mcert_Status written))).
Proof.
  apply (handleMcert_adopts_after_two_collisions "ns/foo" "ns" "foo"
           (newManagedCertificate "ns" "foo" ["example.com"]) crowded
           "g1" "g2" (newSslCertificate "g1") (newSslCertificate "g2"));
    try reflexivity.
  left. reflexivity.
Defined.

Lemma handleMcert_creates_only_missing_witness :
  let r := handleMcert "ns/foo" scenario in
  SslCreate "g1" ["example.com"] None ∈ calls r /\
  forall sslCertificateName domains outcome,
    SslCreate sslCertificateName domains outcome ∈ calls r ->
    domains = ["example.com"] /\
    state (after r) !! "foo" = Some sslCertificateName /\
    exists err, sslClient_Get (sslClient scenario) sslCertificateName = Err err.
Proof.
  split; [vm_compute; repeat constructor|].
  apply (handleMcert_creates_only_missing "ns/foo" "ns" "foo"
           (newManagedCertificate "ns" "foo" ["example.com"]) scenario);
    reflexivity.
Defined.

(** The key [ns/missing] has no object: its reconciliation fails, the
    key is added again with a delay and forgotten all the same. *)
Lemma processNext_forgets_on_every_path_witness :
  let r := processNext (mcertKeysWaiting ["ns/missing"; "ns/foo"]) in
  calls r =
    [QueueGet mcertQueue; ListerGet "ns" "missing";
     QueueAddRateLimited mcertQueue (StringItem "ns/missing");
     HandleError (CollaboratorError "managedcertificate not found");
     QueueForget mcertQueue (StringItem "ns/missing");
     QueueDone mcertQueue (StringItem "ns/missing")] /\
  countEvents isForget (calls r) = 1%nat /\
  countEvents isAddRateLimited (calls r) = 1%nat /\
  items (Mcert_queue (after r)) = [StringItem "ns/foo"] /\
  delayed (Mcert_queue (after r)) = [StringItem "ns/missing"].
Proof.
  destruct (processNext_forgets_on_every_path
              (mcertKeysWaiting ["ns/missing"; "ns/foo"]) "ns/missing"
              [StringItem "ns/foo"] eq_refl)
    as (_ & Hcalls & Hforget & Hadd & Hitems & Hdelayed).
  split; [exact Hcalls|]. split; [exact Hforget|]. split; [exact Hadd|].
  split; [exact Hitems|exact Hdelayed].
Defined.

(** The Ingress [ns/gone] cannot be fetched: the key is added again with
    a delay and is not forgotten. *)
Lemma processNextIngress_keeps_backoff_witness :
  let r := processNextIngress (ingressKeysWaiting "a,b" ["ns/gone"]) in
  calls r =
    [QueueGet ingressQueue; IngressGet "ns" "gone";
     QueueAddRateLimited ingressQueue (StringItem "ns/gone");
     QueueDone ingressQueue (StringItem "ns/gone");
     HandleError (CollaboratorError "ingress not found")] /\
  countEvents isForget (calls r) = 0%nat /\
  countEvents isAddRateLimited (calls r) = 1%nat /\
  items (Ingress_queue (after r)) = [] /\
  delayed (Ingress_queue (after r)) = [StringItem "ns/gone"].
Proof.
  destruct (processNextIngress_keeps_backoff
              (ingressKeysWaiting "a,b" ["ns/gone"]) "ns/gone" [] eq_refl)
    as (_ & Hcalls & Hforget & Hadd & Hitems & Hdelayed).
  split; [exact Hcalls|]. split; [exact Hforget|]. split; [exact Hadd|].
  split; [exact Hitems|exact Hdelayed].
Defined.

Lemma runWorker_drains_witness :
  let w := mcertKeysWaiting ["ns/missing"; "ns/foo"] in
  let r := runWorker 3 w in
  value r = returned /\
  items (Mcert_queue (after r)) = [] /\
  omap doneItem (calls r) = [StringItem "ns/missing"; StringItem "ns/foo"].
Proof.
  apply (runWorker_drains 3 (mcertKeysWaiting ["ns/missing"; "ns/foo"])).
  simpl. lia.
Defined.

Lemma runIngressWorker_drains_witness :
  let w := ingressKeysWaiting "a,b" ["ns/gone"; "ns/ing"] in
  let r := runIngressWorker 5 w in
  value r = blocked /\
  items (Ingress_queue (after r)) = [] /\
  omap doneItem (calls r) = [StringItem "ns/gone"; StringItem "ns/ing"] /\
  state (after r) = state w /\
  sslClient (after r) = sslClient w /\
  client (after r) = client w /\
  lister (after r) = lister w.
Proof.
  apply (runIngressWorker_drains 5
           (ingressKeysWaiting "a,b" ["ns/gone"; "ns/ing"])).
  simpl. lia.
Defined.

Lemma parseAnnotation_pieces_witness :
  range (parseAnnotation "a,,b") = ["a"; ""; "b"] /\
  countByte "," "a,,b" = 2%nat /\
  countByte "," "b" = 0%nat.
Proof.
  split; [reflexivity|]. split; [reflexivity|].
  destruct (parseAnnotation_pieces "a,,b") as (_ & _ & Hpieces).
  apply Hpieces. compute_done.
Defined.

Lemma handleIngress_nothing_to_enqueue_witness :
  handleIngress "a/b/c" (annotated "") =
    (Some (ErrUnexpectedKeyFormat "a/b/c"), annotated "", []) /\
  handleIngress "ns/gone" (annotated "") =
    (Some (CollaboratorError "ingress not found"), annotated "",
     [IngressGet "ns" "gone"]) /\
  handleIngress "ns/ing" (annotated "") =
    (None, annotated "", [IngressGet "ns" "ing"]).
Proof.
  split; [|split].
  - apply (handleIngress_nothing_to_enqueue "a/b/c" (annotated "")).
    reflexivity.
  - apply (handleIngress_nothing_to_enqueue "ns/gone" (annotated ""));
      reflexivity.
  - destruct (handleIngress_nothing_to_enqueue "ns/ing" (annotated ""))
      as (_ & _ & Hempty).
    apply (Hempty "ns" "ing"
             {| Ingress_Namespace := "ns"; Ingress_Name := "ing";
                Annotations := {[annotation := ""]} |});
      [reflexivity|reflexivity|right; by vm_compute].
Defined.

(** The name [a] occurs twice and is handed over twice; [b] is not
    resolved. *)
Lemma handleIngress_enqueues_resolved_witness :
  let w := annotated "a,b,a" in
  let r := handleIngress "ns/ing" w in
  omap enqueued (calls r) =
    [newManagedCertificate "ns" "a" ["a.example.com"];
     newManagedCertificate "ns" "a" ["a.example.com"]] /\
  countEvents isQueueCall (calls r) = 0%nat /\
  state (after r) = state w /\
  sslClient (after r) = sslClient w /\
  client (after r) = client w /\
  lister (after r) = lister w /\
  Ingress_queue (after r) = Ingress_queue w.
Proof.
  apply (handleIngress_enqueues_resolved "ns/ing" "ns" "ing"
           {| Ingress_Namespace := "ns"; Ingress_Name := "ing";
              Annotations := {[annotation := "a,b,a"]} |}
           "a,b,a" (annotated "a,b,a"));
    [reflexivity|reflexivity|by vm_compute].
Defined.

(** The provider's certificate has two per-domain statuses, and the
    second refresh visits them in the other order. *)
Lemma updateStatus_repeats_Update_witness :
  let entries := [("a.example.com", "ACTIVE"); ("b.example.com", "PROVISIONING")] in
  let swapped := [("b.example.com", "PROVISIONING"); ("a.example.com", "ACTIVE")] in
  let mcert := newManagedCertificate "ns" "foo" ["example.com"] in
  let r := updateStatus mcert (issued "ACTIVE" entries) in
  let r' := updateStatus (value r).1 (issued "ACTIVE" swapped) in
  calls r' = [StateGet "foo"; SslGet "g1"; McertUpdate "ns" (value r').1] /\
  identityAndSpec (value r').1 = identityAndSpec (value r).1 /\
  CertificateName (mcert_Status (value r').1)
    = CertificateName (mcert_Status (value r).1) /\
  CertificateStatus (mcert_Status (value r').1)
    = CertificateStatus (mcert_Status (value r).1) /\
  range (Status_DomainStatus (mcert_Status (value r').1))
    ≡ₚ range (Status_DomainStatus (mcert_Status (value r).1)) /\
  (swapped = entries -> (value r').1 = (value r).1).
Proof.
  apply (updateStatus_repeats_Update
           (newManagedCertificate "ns" "foo" ["example.com"])
           (issued "ACTIVE"
              [("a.example.com", "ACTIVE"); ("b.example.com", "PROVISIONING")])
           (issued "ACTIVE"
              [("b.example.com", "PROVISIONING"); ("a.example.com", "ACTIVE")])
           "g1"
           (issuedCertificate "ACTIVE"
              [("a.example.com", "ACTIVE"); ("b.example.com", "PROVISIONING")])
           (issuedCertificate "ACTIVE"
              [("b.example.com", "PROVISIONING"); ("a.example.com", "ACTIVE")]));
    try reflexivity.
  apply perm_swap.
Defined.

(** In that run the two refreshes send the per-domain statuses in
    different orders. *)
Example updateStatus_order_follows_visit :
  let entries := [("a.example.com", "ACTIVE"); ("b.example.com", "PROVISIONING")] in
  let swapped := [("b.example.com", "PROVISIONING"); ("a.example.com", "ACTIVE")] in
  let mcert := newManagedCertificate "ns" "foo" ["example.com"] in
  let r := updateStatus mcert (issued "ACTIVE" entries) in
  let r' := updateStatus (value r).1 (issued "ACTIVE" swapped) in
  Domain <$> range (Status_DomainStatus (mcert_Status (value r).1))
    = ["a.example.com"; "b.example.com"] /\
  Domain <$> range (Status_DomainStatus (mcert_Status (value r').1))
    = ["b.example.com"; "a.example.com"].
Proof. by vm_compute. Qed.
